(** * xo_otm_identify.preproc : crossover / orbit-trajectory-match identification

    A shallow embedding of [PreProcessor] (src/xo_otm_identify/preproc.py)
    and the properties of its matching pipeline.

    Conventions of the embedding.
    - Python floats (timestamps, latitudes, longitudes, distances, hours)
      are the rationals [Q] they denote; NaN and infinities are not
      represented. The arithmetic of the time offset (lines 292-307) and
      of [datetime.fromtimestamp] rounds every result to binary64
      ([np.float64]); comparisons and column means are exact.
    - numpy arrays and pandas columns are lists; a DataFrame is a list of
      row records, in row order.
    - [logger] calls and [to_file] are events appended to a trace; an
      exception ends the computation with [Raise].
    - shapely / geopandas / pandas entry points that the module only calls
      are the operations of the [GeoStack] interface. *)

From Stdlib Require Import String Bool Arith ZArith QArith Qabs Qround Qpower List Sorted Lia Lqa.
Import ListNotations.

Local Open Scope nat_scope.
Local Open Scope list_scope.

(** ** Exceptions, results, and the trace monad *)

(** The Python exceptions the module can end with. [SystemExit] carries
    the argument given to [sys.exit]. *)
Inductive exn : Type :=
| AttributeError
| IndexError
| ValueError
| SystemExit (code : option Z).

Inductive result (A : Type) : Type :=
| Ok (a : A)
| Raise (e : exn).

Arguments Ok {A} a.
Arguments Raise {A} e.

Definition rbind {A B} (r : result A) (k : A -> result B) : result B :=
  match r with
  | Ok a => k a
  | Raise e => Raise e
  end.

Notation "'let?' x ':=' e 'in' k" := (rbind e (fun x => k))
  (at level 10, x name, e at level 100, k at level 200).

(** A computation over a state [St] (here: the trace of events) that
    returns a value or raises. *)
Definition M (St A : Type) : Type := St -> St * result A.

Definition ret {St A} (a : A) : M St A := fun s => (s, Ok a).

Definition raise {St A} (e : exn) : M St A := fun s => (s, Raise e).

Definition bind {St A B} (m : M St A) (k : A -> M St B) : M St B :=
  fun s =>
    match m s with
    | (s', Ok a) => k a s'
    | (s', Raise e) => (s', Raise e)
    end.

Definition lift {St A} (r : result A) : M St A := fun s => (s, r).

Declare Scope py_scope.
Delimit Scope py_scope with py.

Notation "x <- e ;; k" := (bind e (fun x => k))
  (at level 100, e at next level, right associativity) : py_scope.
Notation "e ;; k" := (bind e (fun _ => k))
  (at level 100, right associativity) : py_scope.

Local Open Scope py_scope.

(** [for x in xs: acc = body x acc], the accumulator standing for the
    variables the loop body updates. *)
Fixpoint for_each {St A S} (xs : list A) (body : A -> S -> M St S) (acc : S)
  : M St S :=
  match xs with
  | [] => ret acc
  | x :: xs' => acc' <- body x acc ;; for_each xs' body acc'
  end.

(** The exit status the interpreter reports for a run that ends with
    the given outcome and that nothing catches: 0 on normal completion,
    the argument of [sys.exit] ([None] counts as 0), 1 on any other
    uncaught exception. *)
Definition exit_status {A} (r : result A) : Z :=
  match r with
  | Ok _ => 0%Z
  | Raise (SystemExit None) => 0%Z
  | Raise (SystemExit (Some n)) => n
  | Raise _ => 1%Z
  end.

(** ** Lists as numpy arrays and pandas columns *)

Module np.

(** The 1-tuple of index arrays that [np.where(cond)] returns for a
    one-dimensional [cond]. *)
Record tuple1 : Type := Tup { item0 : list nat }.

(** [len] of that tuple: the number of arrays in it, not of indices. *)
Definition len (t : tuple1) : nat := 1.

Fixpoint where_from (k : nat) (cond : list bool) : list nat :=
  match cond with
  | [] => []
  | b :: cond' =>
      if b then k :: where_from (S k) cond' else where_from (S k) cond'
  end.

Definition where_ (cond : list bool) : tuple1 := Tup (where_from 0 cond).

(** [a[i]] for a non-negative integer [i]. *)
Definition getitem {A} (a : list A) (i : nat) : result A :=
  match nth_error a i with
  | Some x => Ok x
  | None => Raise IndexError
  end.

(** [a[idx]] for an array of non-negative positions (fancy indexing);
    also pandas' [.iloc[list]]. *)
Fixpoint take {A} (a : list A) (idx : list nat) : result (list A) :=
  match idx with
  | [] => Ok []
  | i :: idx' =>
      let? x := getitem a i in
      let? xs := take a idx' in
      Ok (x :: xs)
  end.

(** [a[t]] for the tuple returned by [np.where]. *)
Definition take_tuple {A} (a : list A) (t : tuple1) : result (list A) :=
  take a (item0 t).

(** Element-wise [&] and [|]; operands of different length do not
    broadcast. *)
Fixpoint zip_with (f : bool -> bool -> bool) (a b : list bool)
  : result (list bool) :=
  match a, b with
  | [], [] => Ok []
  | x :: a', y :: b' =>
      let? r := zip_with f a' b' in Ok (f x y :: r)
  | _, _ => Raise ValueError
  end.

Definition and_ := zip_with andb.
Definition or_ := zip_with orb.

(** [a >= c], [a <= c], [a == c] against a scalar. *)
Definition ge (a : list Q) (c : Q) : list bool := map (fun x => Qle_bool c x) a.
Definition le (a : list Q) (c : Q) : list bool := map (fun x => Qle_bool x c) a.
Definition eq_int (a : list Z) (c : Z) : list bool := map (fun x => Z.eqb x c) a.

(** [np.rint]: round half to even, also the rounding of
    [datetime.fromtimestamp]. *)
Definition rint (q : Q) : Z :=
  let f := Qfloor q in
  let r := (q - inject_Z f)%Q in
  match Qcompare r (1 # 2) with
  | Lt => f
  | Gt => (f + 1)%Z
  | Eq => if Z.even f then f else (f + 1)%Z
  end.

(** Binary64. A float is held as the rational it denotes, and
    [float64 q] is the binary64 number nearest to [q], ties going to
    the even significand, subnormal numbers included: the rounding
    every float operation applies to its exact result. Overflow to
    infinity is not represented. *)
Definition pow2 (e : Z) : Q := Qpower 2 e.

(** The exponent of the leading bit of a positive rational. *)
Definition ilog2 (a : Q) : Z :=
  let e0 := (Z.log2 (Qnum a) - Z.log2 (Zpos (Qden a)))%Z in
  if Qle_bool (pow2 e0) a then e0 else (e0 - 1)%Z.

(** The nearest number with a 53-bit significand and an exponent of at
    least -1074, for a non-negative rational. *)
Definition float64_pos (a : Q) : Q :=
  if Qeq_bool a 0 then 0%Q
  else
    let e := Z.max (ilog2 a - 52) (-1074) in
    Qred (inject_Z (rint (a / pow2 e)) * pow2 e).

Definition float64 (q : Q) : Q :=
  if (Qnum q <? 0)%Z then Qopp (float64_pos (Qabs q))
  else float64_pos (Qabs q).

(** [x * y] and [x / y] on floats. *)
Definition multiply (x y : Q) : Q := float64 (x * y).
Definition true_divide (x y : Q) : Q := float64 (x / y).

(** [np.round(x, 3)]: numpy multiplies by [10**3], applies [rint] and
    divides by [10**3], each step in binary64. *)
Definition round3 (x : Q) : Q :=
  true_divide (inject_Z (rint (multiply x 1000))) 1000.

End np.

(** [.iloc[-1]] of a column. *)
Definition iloc_last {A} (a : list A) : result A :=
  match a with
  | [] => Raise IndexError
  | x :: a' => Ok (last a' x)
  end.

Definition sum_Q (l : list Q) : Q := fold_right Qplus 0%Q l.

(** Column mean. *)
Definition mean (l : list Q) : Q := (sum_Q l / inject_Z (Z.of_nat (length l)))%Q.

(** The distinct keys of a [groupby], in ascending order. *)
Fixpoint insert_key (k : string) (ks : list string) : list string :=
  match ks with
  | [] => [k]
  | k' :: ks' =>
      match String.compare k k' with
      | Lt => k :: ks
      | Eq => ks
      | Gt => k' :: insert_key k ks'
      end
  end.

Definition group_keys (ids : list string) : list string :=
  fold_left (fun ks k => insert_key k ks) ids [].

(** ** Configuration, input files, log messages *)

(** The fields of [cfg.Configuration] that [PreProcessor] reads.
    [output_to_shp] is the method giving the output name for a year and
    month. *)
Record Configuration : Type := {
  aoi : string;
  buffersize : Q;
  epsg : Z;
  delta_t : Q;
  matchtype : string;
  carrier1_tag : string;
  carrier2_tag : string;
  output_to_shp : string -> string -> string
}.

(** One L1p file as the three [xr.open_dataset] reads see it: the
    [time_orbit] arrays, the [surface_type] flag, and the [classifier]
    distance to coast where the file has one ([None]: the lookup raised
    and [d2c_available] is False). *)
Record l1p_file : Type := {
  ncfile : string;
  latitude : list Q;
  longitude : list Q;
  timestamp : list Q;
  flag : list Z;
  dist_coast : option (list Q)
}.

Inductive level : Type := INFO | WARNING | CRITICAL.

(** The geometry classes of shapely, as [type(MATCH)] reports them. *)
Inductive shapely_type : Type :=
| Point
| LineString
| LinearRing
| Polygon
| MultiPoint
| MultiLineString
| MultiPolygon
| GeometryCollection.

Inductive pytype : Type :=
| NoneType
| shapely (t : shapely_type).

(** The messages handed to [logger], one constructor per f-string. *)
Inductive message : Type :=
| msg_processing_file (name : string) (k n : nat)  (* 'Processing: {ncfile} - {ncidx+1} out of {N_FILES}' *)
| msg_converting_pandas                            (* 'Converting data to pandas df...' *)
| msg_complete                                     (* 'Complete!' *)
| msg_converting_gdf                               (* 'Converting data into EASE2-based geopandas gdf...' *)
| msg_compile_tracks                               (* 'Compile orbit tracks...' *)
| msg_processing_line (k n : nat)                  (* 'Processing {idx1+1} out of {N_LINES_CARRIER1}' *)
| msg_identifying                                  (* 'Identifying orbit intersections...' *)
| msg_unsupported (t : pytype)                     (* 'Unsupported intersect type: {type(MATCH)}!' *)
| msg_saving                                       (* 'Saving results to GeoDataFrame...' *)
| msg_exporting                                    (* 'Exporting data to shapefiles...' *)
| msg_export_complete                              (* 'Complete.' *)
| msg_no_matches.                                  (* 'No matches found to export!' *)

(** ** The geometry stack the module calls into *)

(** shapely, geopandas and pandas operations used by [PreProcessor],
    with the two facts about empty geometries the matching relies on. *)
Class GeoStack : Type := {
  Geometry : Type;
  (** [type(g)] *)
  geom_type : Geometry -> shapely_type;
  (** [g.is_empty] *)
  is_empty : Geometry -> bool;
  (** [gpd.points_from_xy(lon, lat)], [set_crs(epsg=4326)], then
      [to_crs(epsg)], for one row *)
  points_from_xy : Z -> Q -> Q -> Geometry;
  (** [shapely.geometry.LineString(points)] *)
  LineString_of : list Geometry -> Geometry;
  (** [a.intersection(b)] *)
  intersection : Geometry -> Geometry -> Geometry;
  (** [g.buffer(d)] *)
  buffer : Geometry -> Q -> Geometry;
  (** [a.intersects(b)] *)
  intersects : Geometry -> Geometry -> bool;
  (** the instant [pd.to_datetime(t, unit='s')] stands for, in
      nanoseconds since the epoch; the range the call accepts is
      checked where it is made *)
  to_datetime : Q -> Z;
  buffer_empty :
    forall g d, is_empty g = true -> is_empty (buffer g d) = true;
  intersects_empty :
    forall p g, is_empty g = true -> intersects p g = false
}.

Section PreProcessor.

Context {geo : GeoStack}.

(** A row of the ['pts'] GeoDataFrame. *)
Record pts_row : Type := {
  id : string;
  time : Q;
  lat : Q;
  lon : Q;
  fidx : nat;
  geometry : Geometry
}.

(** The dictionary [_compile_shp] returns: the point rows and, per
    track id, the polyline or [None]. *)
Record gdf_dict : Type := {
  pts : list pts_row;
  lin : list (string * option Geometry)
}.

(** The tuple [ATTRS] of a match. *)
Record ATTRS : Type := {
  l1p_1 : string;
  l1p_2 : string;
  rng1_0 : nat;
  rng1_1 : nat;
  rng2_0 : nat;
  rng2_1 : nat;
  match_dt : Q
}.

(** The GeoDataFrame of matches: column names, coordinate system and
    one row per match with its geometry slot. *)
Record match_gdf : Type := {
  columns : list string;
  crs : Z;
  rows : list (ATTRS * option Geometry)
}.

Inductive event : Type :=
| Log (l : level) (m : message)
| ToFile (outname : string) (gdf : match_gdf).

Definition trace : Type := list event.

Definition Py (A : Type) : Type := M trace A.

Definition logger (l : level) (m : message) : Py unit :=
  fun s => (s ++ [Log l m], Ok tt).

Definition to_file (gdf : match_gdf) (outname : string) : Py unit :=
  fun s => (s ++ [ToFile outname gdf], Ok tt).

(** ** [_compile_shp] *)

(** Lines 89-98: the index tuple of the configured area of interest.
    In the last branch the f-string reads [self.aoi], which
    [PreProcessor] never sets ([__init__] stores [cfg], [year], [month],
    the two paths and the two file lists), so the argument of
    [logger.critical] raises before the call is made. *)
Definition aoi_index (cfg : Configuration) (f : l1p_file) : Py np.tuple1 :=
  let lat := latitude f in
  let lon := longitude f in
  if (aoi cfg =? "arc")%string then
    lift (let? a := np.and_ (np.ge lat 65) (np.le lon (-85)) in
          let? west1 := np.and_ a (np.ge lon (-180)) in
          let? b := np.and_ (np.ge lat 65) (np.le lon 275) in
          let? west2 := np.and_ b (np.ge lon 180) in
          let? c := np.and_ (np.ge lat 70) (np.ge lon 70) in
          let? east := np.and_ c (np.le lon 180) in
          let? w := np.or_ west1 west2 in
          let? m := np.or_ w east in
          Ok (np.where_ m))
  else if (aoi cfg =? "ant")%string then
    ret (np.where_ (np.le lat (-55)))
  else
    raise AttributeError.

(** A row of the per-file DataFrame: id, time, lat, lon, fidx. *)
Definition preproc_row : Type := string * Q * Q * Q * nat.

Fixpoint frame_rows (name : string) (time lat lon : list Q) (fidx : list nat)
  : list preproc_row :=
  match time, lat, lon, fidx with
  | t :: time', la :: lat', lo :: lon', k :: fidx' =>
      (name, t, la, lo, k) :: frame_rows name time' lat' lon' fidx'
  | _, _, _, _ => []
  end.

(** [pd.DataFrame({'id': ..., 'time': ..., 'lat': ..., 'lon': ...,
    'fidx': ...})]: the scalar id is repeated, the arrays must agree in
    length. *)
Definition DataFrame (name : string) (time lat lon : list Q) (fidx : list nat)
  : result (list preproc_row) :=
  if (length time =? length lat) && (length lat =? length lon)
     && (length lon =? length fidx)
  then Ok (frame_rows name time lat lon fidx)
  else Raise ValueError.

(** Lines 61-115: the body of the loop over the files; [xo_preproc] is
    the list being appended to. *)
Definition compile_file (cfg : Configuration) (N_FILES : nat)
    (it : nat * l1p_file) (xo_preproc : list (list preproc_row))
  : Py (list (list preproc_row)) :=
  let '(ncidx, f) := it in
  logger INFO (msg_processing_file (ncfile f) (ncidx + 1) N_FILES) ;;
  let lat := latitude f in
  let lon := longitude f in
  let tmp := timestamp f in
  let sft := flag f in
  aoi_idx <- aoi_index cfg f ;;
  sft_aoi <- lift (np.take_tuple sft aoi_idx) ;;
  let idx2pick := np.where_ (np.eq_int sft_aoi 1) in
  idx2pick <- match dist_coast f with
              | Some d2c =>
                  d2c_pick <- lift (np.take_tuple d2c idx2pick) ;;
                  ret (np.where_ (np.ge d2c_pick (buffersize cfg)))
              | None => ret idx2pick
              end ;;
  if 0 <? np.len aoi_idx then
    time_col <- lift (np.take_tuple tmp idx2pick) ;;
    lat_col <- lift (np.take_tuple lat idx2pick) ;;
    lon_col <- lift (np.take_tuple lon idx2pick) ;;
    df <- lift (DataFrame (ncfile f) time_col lat_col lon_col (np.item0 idx2pick)) ;;
    ret (xo_preproc ++ [df])
  else
    ret xo_preproc.

(** [enumerate(xs)], also the [(Index, ...)] tuples of [itertuples] on a
    frame with the default index. *)
Definition enumerate {A} (xs : list A) : list (nat * A) :=
  combine (seq 0 (length xs)) xs.

(** [pd.concat(frames, ignore_index=True)]. *)
Definition pd_concat {A} (frames : list (list A)) : result (list A) :=
  match frames with
  | [] => Raise ValueError
  | _ => Ok (concat frames)
  end.

(** The rows of one group of [groupby(['id'])], in frame order. *)
Definition rows_of (POINTS : list pts_row) (k : string) : list pts_row :=
  filter (fun r => (id r =? k)%string) POINTS.

(** Lines 126-133: a row of the concatenated frame with its projected
    point. *)
Definition pts_row_of (cfg : Configuration) (r : preproc_row) : pts_row :=
  let '(name, t, la, lo, k) := r in
  {| id := name; time := t; lat := la; lon := lo; fidx := k;
     geometry := points_from_xy (epsg cfg) lo la |}.

(** Lines 141-143: the row of ['lin'] for the group of id [k], with the
    polyline through the group's points when there are at least two. *)
Definition lin_row (pts : list pts_row) (k : string) : string * option Geometry :=
  let x := map geometry (rows_of pts k) in
  (k, if 2 <=? length x then Some (LineString_of x) else None).

(** Line 144, [lin.id]. On a frame without rows [groupby(...).apply]
    returns a frame that has no ['id'] column, and the attribute
    lookup raises. *)
Definition lin_id (lin : list (string * option Geometry))
  : result (list string) :=
  match lin with
  | [] => Raise AttributeError
  | _ => Ok (map fst lin)
  end.

Definition _compile_shp (cfg : Configuration) (files : list l1p_file)
  : Py gdf_dict :=
  let N_FILES := length files in
  xo_preproc <- for_each (enumerate files) (compile_file cfg N_FILES) [] ;;
  logger INFO msg_converting_pandas ;;
  xo_preproc <- lift (pd_concat xo_preproc) ;;
  logger INFO msg_complete ;;
  logger INFO msg_converting_gdf ;;
  let pts := map (pts_row_of cfg) xo_preproc in
  logger INFO msg_complete ;;
  logger INFO msg_compile_tracks ;;
  let lin := map (lin_row pts) (group_keys (map id pts)) in
  lin_id <- lift (lin_id lin) ;;
  logger INFO msg_complete ;;
  ret {| pts := pts; lin := lin |}.

(** ** Point attribution and record synthesis *)

(** Lines 240-244. A [matchtype] other than ['xo'] and ['otm'] falls
    off the end of the method, which then returns [None]. *)
Definition _identify_intersection (cfg : Configuration) (line1 line2 : Geometry)
  : option Geometry :=
  if (matchtype cfg =? "xo")%string then
    Some (intersection line1 line2)
  else if (matchtype cfg =? "otm")%string then
    Some (intersection line1 (buffer line2 (buffersize cfg)))
  else
    None.

(** Lines 246-258: the positions, within [line_points], of the points
    that intersect the buffered match, collected by the loop over
    [enumerate(line_point_geometries)]. *)
Definition _identify_points_in_match (cfg : Configuration) (MATCH : Geometry)
    (line_points : list pts_row) : list nat :=
  let line_point_geometries := map geometry line_points in
  let match_buffered := buffer MATCH (buffersize cfg) in
  fold_left
    (fun line_points_in_match (it : nat * Geometry) =>
       let '(pt_idx, pt) := it in
       if intersects pt match_buffered
       then line_points_in_match ++ [pt_idx]
       else line_points_in_match)
    (enumerate line_point_geometries) [].

(** [datetime.fromtimestamp(t, timezone.utc)] as microseconds since the
    epoch. The interpreter splits the float into its integral and
    fractional parts ([modf]), multiplies the fraction by [1e6] in
    binary64 and rounds it half-even to whole microseconds. A date
    outside the years 1..9999 is an error (modelled as ValueError
    throughout). *)
Definition datetime_min : Z := (-62135596800000000)%Z.
Definition datetime_max : Z := 253402300799999999%Z.

(** The integral part of [modf]: truncation toward zero. *)
Definition trunc (t : Q) : Z :=
  if Qle_bool 0 t then Qfloor t else Qceiling t.

Definition fromtimestamp (t : Q) : result Z :=
  let intpart := trunc t in
  let floatpart := np.multiply (t - inject_Z intpart) 1000000 in
  let us := (intpart * 1000000 + np.rint floatpart)%Z in
  if ((datetime_min <=? us) && (us <=? datetime_max))%Z
  then Ok us
  else Raise ValueError.

(** [timedelta.total_seconds()] of a difference given in microseconds:
    the integer count divided by [10**6], correctly rounded. *)
Definition total_seconds (us : Z) : Q :=
  np.float64 (inject_Z us / 1000000).

(** Lines 260-310. The two distance series [dist2xo1], [dist2xo2] are
    computed from the selected geometries and never read; what remains
    of lines 279-284 is the positional selection itself, which raises
    on a position outside the frame. *)
Definition _identify_XOs (cfg : Configuration) (MATCH : Geometry)
    (line1_points line2_points : list pts_row) : result (option ATTRS) :=
  let line1_points_in_match := _identify_points_in_match cfg MATCH line1_points in
  let line2_points_in_match := _identify_points_in_match cfg MATCH line2_points in
  if (0 <? length line1_points_in_match) && (0 <? length line2_points_in_match)
  then
    let? fidx1 := np.take (map fidx line1_points) line1_points_in_match in
    let? fidx2 := np.take (map fidx line2_points) line2_points_in_match in
    let geometry1 := map geometry line1_points in
    let? line1_match_geometries := np.take geometry1 line1_points_in_match in
    let geometry2 := map geometry line1_points in
    let? line2_match_geometries := np.take geometry2 line2_points_in_match in
    let dt_idx1 := length line1_points_in_match / 2 in
    let dt_idx2 := length line2_points_in_match / 2 in
    let? i1 := np.getitem line1_points_in_match dt_idx1 in
    let? t1 := np.getitem (map time line1_points) i1 in
    let? i2 := np.getitem line2_points_in_match dt_idx2 in
    let? t2 := np.getitem (map time line2_points) i2 in
    let? dt_pts1 := fromtimestamp t1 in
    let? dt_pts2 := fromtimestamp t2 in
    let delta_dt_match := (dt_pts1 - dt_pts2)%Z in
    let abs_delta_hh := Qabs (np.true_divide (total_seconds delta_dt_match) 3600) in
    let? a0 := np.getitem (map id line1_points) 0 in
    let? a1 := np.getitem (map id line2_points) 0 in
    let? a2 := np.getitem fidx1 0 in
    let? a3 := iloc_last fidx1 in
    let? a4 := np.getitem fidx2 0 in
    let? a5 := iloc_last fidx2 in
    Ok (Some {| l1p_1 := a0; l1p_2 := a1;
                rng1_0 := a2; rng1_1 := a3; rng2_0 := a4; rng2_1 := a5;
                match_dt := np.round3 abs_delta_hh |})
  else
    Ok None.

(** Lines 312-352. *)
Definition _identify_OTMs (cfg : Configuration) (MATCH : Geometry)
    (line1_points line2_points : list pts_row) : result (option ATTRS) :=
  let line1_points_in_match := _identify_points_in_match cfg MATCH line1_points in
  let line2_points_in_match := _identify_points_in_match cfg MATCH line2_points in
  if (50 <? length line1_points_in_match) && (50 <? length line2_points_in_match)
  then
    let? fidx1 := np.take (map fidx line1_points) line1_points_in_match in
    let? fidx2 := np.take (map fidx line2_points) line2_points_in_match in
    let dt_idx1 := length line1_points_in_match / 2 in
    let dt_idx2 := length line2_points_in_match / 2 in
    let? i1 := np.getitem line1_points_in_match dt_idx1 in
    let? t1 := np.getitem (map time line1_points) i1 in
    let? i2 := np.getitem line2_points_in_match dt_idx2 in
    let? t2 := np.getitem (map time line2_points) i2 in
    let? dt_pts1 := fromtimestamp t1 in
    let? dt_pts2 := fromtimestamp t2 in
    let delta_dt_match := (dt_pts1 - dt_pts2)%Z in
    let abs_delta_hh := Qabs (np.true_divide (total_seconds delta_dt_match) 3600) in
    let? a0 := np.getitem (map id line1_points) 0 in
    let? a1 := np.getitem (map id line2_points) 0 in
    let? a2 := np.getitem fidx1 0 in
    let? a3 := iloc_last fidx1 in
    let? a4 := np.getitem fidx2 0 in
    let? a5 := iloc_last fidx2 in
    Ok (Some {| l1p_1 := a0; l1p_2 := a1;
                rng1_0 := a2; rng1_1 := a3; rng2_0 := a4; rng2_1 := a5;
                match_dt := np.round3 abs_delta_hh |})
  else
    Ok None.

(** ** [_identify] *)

Definition is_Point (g : Geometry) : bool :=
  match geom_type g with Point => true | _ => false end.

Definition is_LineString (g : Geometry) : bool :=
  match geom_type g with LineString => true | _ => false end.

(** The accumulators [attributes] and [geometries] of [_identify]. A
    geometry slot holds what [MATCH] held, [None] included. *)
Definition accumulators : Type := list ATTRS * list (option Geometry).

(** Lines 191-219: the body of the inner loop for one row of the
    time-filtered [LINES2], inside the iteration for [(xo_id1, lin1)].
    Python's [None] for a missing polyline or a missing intersection is
    [None] here. *)
Definition identify_pair (cfg : Configuration) (POINTS1 POINTS2 : list pts_row)
    (xo_id1 : string) (lin1 : option Geometry)
    (it2 : nat * (string * option Geometry)) (acc : accumulators)
  : Py accumulators :=
  let '(idx2, (xo_id2, lin2)) := it2 in
  let '(attributes, geometries) := acc in
  match lin1, lin2 with
  | Some line1, Some line2 =>
      let MATCH := _identify_intersection cfg line1 line2 in
      let points_on_line1 := rows_of POINTS1 xo_id1 in
      let points_on_line2 := rows_of POINTS2 xo_id2 in
      ATTRS_ <-
        match MATCH with
        | Some m =>
            if is_Point m && (matchtype cfg =? "xo")%string then
              lift (_identify_XOs cfg m points_on_line1 points_on_line2)
            else if is_LineString m && (matchtype cfg =? "otm")%string then
              lift (_identify_OTMs cfg m points_on_line1 points_on_line2)
            else
              (logger WARNING (msg_unsupported (shapely (geom_type m))) ;;
               ret None)
        | None =>
            logger WARNING (msg_unsupported NoneType) ;;
            ret None
        end ;;
      match ATTRS_ with
      | Some a => ret (attributes ++ [a], geometries ++ [MATCH])
      | None => ret (attributes, geometries)
      end
  | _, _ => ret (attributes, geometries)
  end.

(** [groupby(['id'], as_index=False).mean()] of the time column. *)
Definition group_mean_time (POINTS : list pts_row) : list (string * Q) :=
  map (fun k => (k, mean (map time (rows_of POINTS k))))
      (group_keys (map id POINTS)).

(** [pd.to_datetime(avg_t.time, unit='s')]. The nanosecond count of
    every mean time has to fit [datetime64[ns]], a signed 64-bit count
    whose least value stands for NaT; otherwise the call raises
    OutOfBoundsDatetime, a ValueError. *)
Definition Timestamp_min : Z := (-9223372036854775807)%Z.
Definition Timestamp_max : Z := 9223372036854775807%Z.

Definition in_bounds (ns : Z) : bool :=
  ((Timestamp_min <=? ns) && (ns <=? Timestamp_max))%Z.

Definition pd_to_datetime (avg_t : list (string * Q)) : result (list Z) :=
  let ns := map (fun r => to_datetime (snd r)) avg_t in
  if forallb in_bounds ns then Ok ns else Raise ValueError.

(** [pd.Timedelta(hours=1)] in nanoseconds. *)
Definition hour_ns : Q := 3600000000000%Q.

(** Lines 184-185 for one track of carrier 2: the absolute difference
    of two mean times, given in nanoseconds, in hours. *)
Definition abs_dtd_hh_of (t2 t1 : Z) : Q :=
  (Qabs (inject_Z (t2 - t1)) / hour_ns)%Q.

(** Lines 177-219: the body of the outer loop for one row of [LINES1]. *)
Definition identify_line (cfg : Configuration) (POINTS1 POINTS2 : list pts_row)
    (LINES2 : list (string * option Geometry)) (dt1_df dt2_df : list Z)
    (N_LINES_CARRIER1 : nat)
    (it1 : nat * (string * option Geometry)) (acc : accumulators)
  : Py accumulators :=
  let '(idx1, (xo_id1, lin1)) := it1 in
  logger INFO (msg_processing_line (idx1 + 1) N_LINES_CARRIER1) ;;
  logger INFO msg_identifying ;;
  t1 <- lift (np.getitem dt1_df idx1) ;;
  let abs_dtd_hh := map (fun t2 => abs_dtd_hh_of t2 t1) dt2_df in
  let LINES_IDX := np.where_from 0 (np.le abs_dtd_hh (delta_t cfg)) in
  subset <- lift (np.take (enumerate LINES2) LINES_IDX) ;;
  for_each subset (identify_pair cfg POINTS1 POINTS2 xo_id1 lin1) acc.

(** [gpd.GeoDataFrame(attributes, geometry=geometries, crs=..., columns=...)]. *)
Definition GeoDataFrame (attributes : list ATTRS)
    (geometries : list (option Geometry)) (crs : Z) (columns : list string)
  : result match_gdf :=
  if length attributes =? length geometries
  then Ok {| columns := columns; crs := crs;
             rows := combine attributes geometries |}
  else Raise ValueError.

Definition _identify (cfg : Configuration) (gdfdict_c1 gdfdict_c2 : gdf_dict)
  : Py match_gdf :=
  let POINTS1 := pts gdfdict_c1 in
  let POINTS2 := pts gdfdict_c2 in
  let LINES1 := lin gdfdict_c1 in
  let LINES2 := lin gdfdict_c2 in
  let avg_t1 := group_mean_time POINTS1 in
  dt1_df <- lift (pd_to_datetime avg_t1) ;;
  let avg_t2 := group_mean_time POINTS2 in
  dt2_df <- lift (pd_to_datetime avg_t2) ;;
  let N_LINES_CARRIER1 := length LINES1 in
  acc <- for_each (enumerate LINES1)
           (identify_line cfg POINTS1 POINTS2 LINES2 dt1_df dt2_df
              N_LINES_CARRIER1)
           ([], []) ;;
  let '(attributes, geometries) := acc in
  logger INFO msg_saving ;;
  let MATCH := matchtype cfg in
  let CARRIER_TAG1 := carrier1_tag cfg in
  let CARRIER_TAG2 := carrier2_tag cfg in
  let COLUMNS := [ "l1p_" ++ CARRIER_TAG1;
                   "l1p_" ++ CARRIER_TAG2;
                   CARRIER_TAG1 ++ "_rng_0";
                   CARRIER_TAG1 ++ "_rng_1";
                   CARRIER_TAG2 ++ "_rng_0";
                   CARRIER_TAG2 ++ "_rng_1";
                   MATCH ++ "_dt" ]%string in
  lift (GeoDataFrame attributes geometries (epsg cfg) COLUMNS).

(** ** [_export_shp] and [run] *)

(** [gdf.set_crs(epsg=e)]: a frame that already has another coordinate
    system is refused. *)
Definition set_crs (gdf : match_gdf) (e : Z) : result match_gdf :=
  if (crs gdf =? e)%Z then Ok gdf else Raise ValueError.

(** Lines 354-367. [sys.exit()] is called without an argument. *)
Definition _export_shp (cfg : Configuration) (year month : string)
    (id_gdf : match_gdf) : Py unit :=
  id_gdf <- lift (set_crs id_gdf (epsg cfg)) ;;
  if 0 <? length (rows id_gdf) then
    logger INFO msg_exporting ;;
    let OUTNAME := output_to_shp cfg year month in
    to_file id_gdf OUTNAME ;;
    logger INFO msg_export_complete
  else
    logger CRITICAL msg_no_matches ;;
    raise (SystemExit None).

(** Lines 42-51, with the two directory listings given as the files
    they name. *)
Definition run (cfg : Configuration) (year month : string)
    (files_carrier1 files_carrier2 : list l1p_file) : Py unit :=
  carrier1_gdfdict <- _compile_shp cfg files_carrier1 ;;
  carrier2_gdfdict <- _compile_shp cfg files_carrier2 ;;
  id_gdf <- _identify cfg carrier1_gdfdict carrier2_gdfdict ;;
  _export_shp cfg year month id_gdf.

(** ** Vocabulary of the statements *)

(** The attribution test of line 254 for one sample of a track. *)
Definition in_match (cfg : Configuration) (MATCH : Geometry) (r : pts_row)
  : bool :=
  intersects (geometry r) (buffer MATCH (buffersize cfg)).

(** The attributed samples of a track, in the track's own order. *)
Definition attributed (cfg : Configuration) (MATCH : Geometry)
    (line_points : list pts_row) : list pts_row :=
  filter (in_match cfg MATCH) line_points.

(** The time offset of lines 292-298: the absolute difference of two
    instants given in microseconds, in hours, as the float division
    gives it. *)
Definition hours_between (us1 us2 : Z) : Q :=
  Qabs (np.true_divide (total_seconds (us1 - us2)) 3600).

(** The same difference in exact arithmetic. *)
Definition hours_apart (us1 us2 : Z) : Q :=
  Qabs (inject_Z (us1 - us2) / 3600000000).

(** [type(MATCH)]. *)
Definition type_ (MATCH : option Geometry) : pytype :=
  match MATCH with
  | None => NoneType
  | Some m => shapely (geom_type m)
  end.

(** What lines 286-307 and 328-349 put into [ATTRS], read off the
    attributed samples of the two tracks. *)
Definition synthesized (cfg : Configuration) (MATCH : Geometry)
    (line1_points line2_points : list pts_row) (a : ATTRS) : Prop :=
  let q1 := attributed cfg MATCH line1_points in
  let q2 := attributed cfg MATCH line2_points in
  (exists r, hd_error line1_points = Some r /\ l1p_1 a = id r) /\
  (exists r, hd_error line2_points = Some r /\ l1p_2 a = id r) /\
  hd_error (map fidx q1) = Some (rng1_0 a) /\
  iloc_last (map fidx q1) = Ok (rng1_1 a) /\
  hd_error (map fidx q2) = Some (rng2_0 a) /\
  iloc_last (map fidx q2) = Ok (rng2_1 a) /\
  exists r1 r2 us1 us2,
    nth_error q1 (length q1 / 2) = Some r1 /\
    nth_error q2 (length q2 / 2) = Some r2 /\
    fromtimestamp (time r1) = Ok us1 /\
    fromtimestamp (time r2) = Ok us2 /\
    match_dt a = np.round3 (hours_between us1 us2).

(** Does the dispatch of lines 202-212 hand [MATCH] to a synthesizer? *)
Definition dispatched (cfg : Configuration) (MATCH : Geometry) : bool :=
  (is_Point MATCH && (matchtype cfg =? "xo")%string)
  || (is_LineString MATCH && (matchtype cfg =? "otm")%string).

(** The samples of the two tracks a match row names. *)
Definition track1 (g1 : gdf_dict) (a : ATTRS) : list pts_row :=
  rows_of (pts g1) (l1p_1 a).

Definition track2 (g2 : gdf_dict) (a : ATTRS) : list pts_row :=
  rows_of (pts g2) (l1p_2 a).

(** Does the classified shape of an intersection result agree with the
    configured match type? *)
Definition shape_matches (cfg : Configuration) (MATCH : option Geometry)
  : bool :=
  match MATCH with
  | None => false
  | Some m => dispatched cfg m
  end.

(** The pair of tracks and the synthesizer call a match row comes from. *)
Definition emitted_by (cfg : Configuration) (g1 g2 : gdf_dict)
    (row : ATTRS * option Geometry) : Prop :=
  exists xo_id1 line1 xo_id2 line2 m,
    In (xo_id1, Some line1) (lin g1) /\
    In (xo_id2, Some line2) (lin g2) /\
    _identify_intersection cfg line1 line2 = Some m /\
    snd row = Some m /\
    ((geom_type m = Point /\ matchtype cfg = "xo"%string /\
      _identify_XOs cfg m (rows_of (pts g1) xo_id1) (rows_of (pts g2) xo_id2)
      = Ok (Some (fst row)))
     \/
     (geom_type m = LineString /\ matchtype cfg = "otm"%string /\
      _identify_OTMs cfg m (rows_of (pts g1) xo_id1) (rows_of (pts g2) xo_id2)
      = Ok (Some (fst row)))).

(** A row built for a file repeats what the file holds at the row's
    [fidx]. *)
Definition read_at (f : l1p_file) (r : preproc_row) : Prop :=
  let '(name, t, la, lo, k) := r in
  name = ncfile f /\
  nth_error (timestamp f) k = Some t /\
  nth_error (latitude f) k = Some la /\
  nth_error (longitude f) k = Some lo.

(** The three tests of lines 89-107, taken sample by sample: the area
    of interest, the surface type 'ocean', and, where the file has it,
    a distance to coast of at least the buffer. *)
Definition in_aoi (cfg : Configuration) (la lo : Q) : bool :=
  if (aoi cfg =? "arc")%string then
    (Qle_bool 65 la && Qle_bool lo (-85) && Qle_bool (-180) lo)
    || (Qle_bool 65 la && Qle_bool lo 275 && Qle_bool 180 lo)
    || (Qle_bool 70 la && Qle_bool 70 lo && Qle_bool lo 180)
  else if (aoi cfg =? "ant")%string then
    Qle_bool la (-55)
  else
    false.

(** Is the measurement at position [k] of the file eligible? *)
Definition eligible (cfg : Configuration) (f : l1p_file) (k : nat) : bool :=
  match nth_error (latitude f) k, nth_error (longitude f) k,
        nth_error (flag f) k with
  | Some la, Some lo, Some sft =>
      in_aoi cfg la lo && (sft =? 1)%Z
      && match dist_coast f with
         | Some d2c =>
             match nth_error d2c k with
             | Some d => Qle_bool (buffersize cfg) d
             | None => false
             end
         | None => true
         end
  | _, _, _ => false
  end.

(** The positions of a file's eligible measurements. *)
Definition eligible_positions (cfg : Configuration) (f : l1p_file)
  : list nat :=
  filter (eligible cfg f) (seq 0 (length (latitude f))).

(** The dictionary [_compile_shp] builds from the given files when
    run on an empty trace (empty if it raises). *)
Definition built (cfg : Configuration) (files : list l1p_file) : gdf_dict :=
  match snd (_compile_shp cfg files []) with
  | Ok g => g
  | Raise _ => {| pts := []; lin := [] |}
  end.

(** The loop invariant of [_identify]: the accumulators stay aligned,
    and every row in them has its provenance. *)
Definition accumulators_ok (cfg : Configuration) (g1 g2 : gdf_dict)
    (acc : accumulators) : Prop :=
  length (fst acc) = length (snd acc) /\
  Forall (emitted_by cfg g1 g2) (combine (fst acc) (snd acc)).

End PreProcessor.

(** ** A planar instance of the geometry stack, for the scenarios

    Exact rational geometry on points and polylines, at vertex
    resolution: two polylines meet in the crossing points of their
    non-parallel segments; a buffer is the set of points within the
    given distance (shapely approximates the disc by a polygon; the
    scenarios keep their samples well off the rim); a polyline is
    clipped to a buffer by keeping its runs of two or more consecutive
    vertices inside. Coordinates are
    taken as they are: the instance stands for a configuration with
    [epsg = 4326], where [to_crs] leaves longitude and latitude
    unchanged. Collinear overlaps and operands the pipeline never
    forms are outside this fragment. *)

Module Planar.

Definition xy : Type := (Q * Q)%type.

Inductive shape : Type :=
| Pt (p : xy)
| Ln (vs : list xy)
| MPt (ps : list xy)
| MLn (ls : list (list xy))
| Buf (g : shape) (d : Q)
| Nothing.

Definition sq (x : Q) : Q := (x * x)%Q.

Definition d2 (p q : xy) : Q :=
  Qred (sq (fst p - fst q) + sq (snd p - snd q)).

Definition clamp01 (t : Q) : Q :=
  if Qle_bool t 0 then 0%Q else if Qle_bool 1 t then 1%Q else t.

(** Squared distance from [p] to the segment [a b]. *)
Definition d2_seg (p a b : xy) : Q :=
  let l2 := d2 a b in
  if Qeq_bool l2 0 then d2 p a
  else
    let t := clamp01 (((fst p - fst a) * (fst b - fst a)
                       + (snd p - snd a) * (snd b - snd a)) / l2) in
    d2 p (fst a + t * (fst b - fst a), snd a + t * (snd b - snd a))%Q.

Fixpoint segments (vs : list xy) : list (xy * xy) :=
  match vs with
  | a :: ((b :: _) as vs') => (a, b) :: segments vs'
  | _ => []
  end.

Definition near_path (p : xy) (vs : list xy) (r : Q) : bool :=
  match vs with
  | [v] => Qle_bool (d2 p v) (sq r)
  | _ => existsb (fun s => Qle_bool (d2_seg p (fst s) (snd s)) (sq r)) (segments vs)
  end.

(** Is [p] within distance [r] of [g]? *)
Fixpoint within (p : xy) (g : shape) (r : Q) : bool :=
  match g with
  | Pt q => Qle_bool (d2 p q) (sq r)
  | Ln vs => near_path p vs r
  | MPt ps => existsb (fun q => Qle_bool (d2 p q) (sq r)) ps
  | MLn ls => existsb (fun vs => near_path p vs r) ls
  | Buf g' d => negb (Qle_bool d 0) && within p g' (r + d)
  | Nothing => false
  end.

Fixpoint vertices (g : shape) : list xy :=
  match g with
  | Pt p => [p]
  | Ln vs => vs
  | MPt ps => ps
  | MLn ls => concat ls
  | Buf g' _ => vertices g'
  | Nothing => []
  end.

Fixpoint empty (g : shape) : bool :=
  match g with
  | Pt _ => false
  | Ln vs => match vs with [] => true | _ => false end
  | MPt ps => match ps with [] => true | _ => false end
  | MLn ls => forallb (fun vs => match vs with [] => true | _ => false end) ls
  | Buf g' d => empty g' || Qle_bool d 0
  | Nothing => true
  end.

Definition type_of (g : shape) : shapely_type :=
  match g with
  | Pt _ => Point
  | Ln _ => LineString
  | MPt _ => MultiPoint
  | MLn _ => MultiLineString
  | Buf _ _ => Polygon
  | Nothing => GeometryCollection
  end.

Definition cross (u v : xy) : Q := (fst u * snd v - snd u * fst v)%Q.

Definition sub (p q : xy) : xy := (fst p - fst q, snd p - snd q)%Q.

(** The crossing point of two non-parallel segments, if they meet. *)
Definition seg_cross (s1 s2 : xy * xy) : option xy :=
  let '(a, b) := s1 in
  let '(c, d) := s2 in
  let r := sub b a in
  let s := sub d c in
  let den := cross r s in
  if Qeq_bool den 0 then None
  else
    let t := (cross (sub c a) s / den)%Q in
    let u := (cross (sub c a) r / den)%Q in
    if Qle_bool 0 t && Qle_bool t 1 && Qle_bool 0 u && Qle_bool u 1
    then Some (Qred (fst a + t * fst r), Qred (snd a + t * snd r))%Q
    else None.

Definition xy_eqb (p q : xy) : bool :=
  Qeq_bool (fst p) (fst q) && Qeq_bool (snd p) (snd q).

Fixpoint add_new (p : xy) (ps : list xy) : list xy :=
  match ps with
  | [] => [p]
  | q :: ps' => if xy_eqb p q then ps else q :: add_new p ps'
  end.

Definition crossings (a b : list xy) : list xy :=
  fold_left
    (fun acc s1 =>
       fold_left
         (fun acc s2 =>
            match seg_cross s1 s2 with
            | Some p => add_new p acc
            | None => acc
            end)
         (segments b) acc)
    (segments a) [].

Fixpoint runs (inside : xy -> bool) (vs cur : list xy) : list (list xy) :=
  match vs with
  | [] => [cur]
  | v :: vs' =>
      if inside v then runs inside vs' (cur ++ [v])
      else cur :: runs inside vs' []
  end.

Definition clip (a : list xy) (g : shape) (d : Q) : shape :=
  match filter (fun r => 2 <=? length r)
               (runs (fun v => within v (Buf g d) 0) a []) with
  | [] => Ln []
  | [r] => Ln r
  | rs => MLn rs
  end.

Definition meet (g h : shape) : shape :=
  match g, h with
  | Ln a, Ln b =>
      match crossings a b with
      | [] => Ln []
      | [p] => Pt p
      | ps => MPt ps
      end
  | Ln a, Buf h' d => clip a h' d
  | _, _ => Nothing
  end.

Definition touches (g h : shape) : bool :=
  existsb (fun p => within p h 0) (vertices g).

End Planar.

(** ** Scenarios *)

Module Scenario.

Definition cfg_xo : Configuration :=
  {| aoi := "ant"; buffersize := 3 # 2; epsg := 4326; delta_t := 2;
     matchtype := "xo"; carrier1_tag := "cs2"; carrier2_tag := "env";
     output_to_shp := fun year month => ("xo_" ++ year ++ month ++ ".shp")%string |}.

Definition cfg_otm : Configuration :=
  {| aoi := "ant"; buffersize := 1; epsg := 4326; delta_t := 2;
     matchtype := "otm"; carrier1_tag := "cs2"; carrier2_tag := "env";
     output_to_shp := fun year month => ("otm_" ++ year ++ month ++ ".shp")%string |}.

(** As [cfg_xo], with a buffer of three units. *)
Definition cfg_xo_wide : Configuration :=
  {| aoi := "ant"; buffersize := 3; epsg := 4326; delta_t := 2;
     matchtype := "xo"; carrier1_tag := "cs2"; carrier2_tag := "env";
     output_to_shp := fun year month => ("xo_" ++ year ++ month ++ ".shp")%string |}.

(** As [cfg_xo], with an area of interest the module does not know. *)
Definition cfg_bad_aoi : Configuration :=
  {| aoi := "glb"; buffersize := 3 # 2; epsg := 4326; delta_t := 2;
     matchtype := "xo"; carrier1_tag := "cs2"; carrier2_tag := "env";
     output_to_shp := fun year month => ("xo_" ++ year ++ month ++ ".shp")%string |}.

Definition ramp (n : nat) (start step : Q) : list Q :=
  map (fun i => (start + inject_Z (Z.of_nat i) * step)%Q) (seq 0 n).

Definition ocean (n : nat) : list Z := repeat 1%Z n.

(** Two tracks of five ocean samples each that cross at their middle
    sample, (2, -58), a little over an hour apart. *)
Definition file_a : l1p_file :=
  {| ncfile := "a.nc";
     latitude := ramp 5 (-60) 1; longitude := ramp 5 0 1;
     timestamp := ramp 5 1000 10; flag := ocean 5; dist_coast := None |}.

Definition file_b : l1p_file :=
  {| ncfile := "b.nc";
     latitude := ramp 5 (-56) (-1); longitude := ramp 5 0 1;
     timestamp := ramp 5 5000 10; flag := ocean 5; dist_coast := None |}.

(** As [file_b], 1827 seconds after [file_a] at the crossing. *)
Definition file_d : l1p_file :=
  {| ncfile := "d.nc";
     latitude := ramp 5 (-56) (-1); longitude := ramp 5 0 1;
     timestamp := ramp 5 2827 10; flag := ocean 5; dist_coast := None |}.

(** A track parallel to [file_a], six degrees to the south of it: the
    two polylines do not meet. *)
Definition file_c : l1p_file :=
  {| ncfile := "c.nc";
     latitude := ramp 5 (-66) 1; longitude := ramp 5 0 1;
     timestamp := ramp 5 5000 10; flag := ocean 5; dist_coast := None |}.

(** Two tracks of sixty samples running side by side, half a unit
    apart. *)
Definition file_p : l1p_file :=
  {| ncfile := "p.nc";
     latitude := repeat (-60)%Q 60; longitude := ramp 60 0 1;
     timestamp := ramp 60 1000 1; flag := ocean 60; dist_coast := None |}.

Definition file_q : l1p_file :=
  {| ncfile := "q.nc";
     latitude := repeat (-119 # 2)%Q 60; longitude := ramp 60 0 1;
     timestamp := ramp 60 4600 1; flag := ocean 60; dist_coast := None |}.

(** A two-sample track crossed in the middle of its only segment by a
    four-sample track. *)
Definition file_s : l1p_file :=
  {| ncfile := "s.nc";
     latitude := [-60; -56]%Q; longitude := [0; 4]%Q;
     timestamp := [1000; 1040]%Q; flag := ocean 2; dist_coast := None |}.

Definition file_t : l1p_file :=
  {| ncfile := "t.nc";
     latitude := ramp 4 (-56) (-1); longitude := ramp 4 0 1;
     timestamp := ramp 4 5000 10; flag := ocean 4; dist_coast := None |}.

(** A file with a single sample. *)
Definition file_u : l1p_file :=
  {| ncfile := "u.nc";
     latitude := [-58]%Q; longitude := [2]%Q;
     timestamp := [5020]%Q; flag := ocean 1; dist_coast := None |}.

(** A file whose first two samples lie outside the Antarctic area and
    whose third is not ocean. *)
Definition file_m : l1p_file :=
  {| ncfile := "m.nc";
     latitude := [-50; -52; -56; -58; -60; -62]%Q;
     longitude := [0; 1; 2; 3; 4; 5]%Q;
     timestamp := [100; 110; 120; 130; 140; 150]%Q;
     flag := [1; 1; 0; 1; 1; 1]%Z;
     dist_coast := None |}.

(** Two files with a distance to coast. In each, the first two samples
    lie north of the Antarctic area, far from the coast, and the last
    two inside it, on the coast: no sample passes all three tests. The
    first pairs of samples trace two segments that cross at (1, -50). *)
Definition file_e : l1p_file :=
  {| ncfile := "e.nc";
     latitude := [-50; -50; -60; -60]%Q;
     longitude := [0; 2; 10; 11]%Q;
     timestamp := [1000; 1010; 1020; 1030]%Q;
     flag := ocean 4;
     dist_coast := Some [100; 100; 0; 0]%Q |}.

Definition file_f : l1p_file :=
  {| ncfile := "f.nc";
     latitude := [-51; -49; -60; -60]%Q;
     longitude := [1; 1; 10; 11]%Q;
     timestamp := [5000; 5010; 5020; 5030]%Q;
     flag := ocean 4;
     dist_coast := Some [100; 100; 0; 0]%Q |}.

(** A track that stays north of the Antarctic area. *)
Definition file_n : l1p_file :=
  {| ncfile := "n.nc";
     latitude := [-50; -51; -52]%Q; longitude := [0; 1; 2]%Q;
     timestamp := [1000; 1010; 1020]%Q; flag := ocean 3;
     dist_coast := None |}.

End Scenario.

(** * Properties *)

(** ** The monads *)

Lemma rbind_ok {A B} (r : result A) (k : A -> result B) (v : B) :
  rbind r k = Ok v -> exists a, r = Ok a /\ k a = Ok v.
Proof.
  destruct r as [a|e]; simpl; intros H; [eauto | discriminate].
Qed.

Lemma bind_ok {St A B} (m : M St A) (k : A -> M St B) s s' v :
  bind m k s = (s', Ok v) ->
  exists s1 a, m s = (s1, Ok a) /\ k a s1 = (s', Ok v).
Proof.
  unfold bind. destruct (m s) as [s1 [a|e]]; intros H.
  - eauto.
  - discriminate.
Qed.

Lemma bind_eq {St A B} (m : M St A) (k : A -> M St B) s s1 a :
  m s = (s1, Ok a) -> bind m k s = k a s1.
Proof. unfold bind. intros ->. reflexivity. Qed.

Lemma bind_raise {St A B} (m : M St A) (k : A -> M St B) s s1 e :
  m s = (s1, Raise e) -> bind m k s = (s1, Raise e).
Proof. unfold bind. intros ->. reflexivity. Qed.

Lemma lift_ok {St A} (r : result A) (s s' : St) v :
  lift r s = (s', Ok v) -> s' = s /\ r = Ok v.
Proof. unfold lift. intros H. inversion H. auto. Qed.

Lemma ret_ok {St A} (a v : A) (s s' : St) :
  ret a s = (s', Ok v) -> s' = s /\ v = a.
Proof. unfold ret. intros H. inversion H. auto. Qed.

(** Peel the successful steps off a computation that returned. *)
Ltac step_result H :=
  let x := fresh "x" in
  let Hx := fresh "Hx" in
  apply rbind_ok in H; destruct H as (x & Hx & H).

Ltac step_py H :=
  let s := fresh "s" in
  let x := fresh "x" in
  let Hx := fresh "Hx" in
  apply bind_ok in H; destruct H as (s & x & Hx & H).

Lemma pd_to_datetime_ok {geo : GeoStack} avg_t ns :
  pd_to_datetime avg_t = Ok ns ->
  ns = map (fun r => to_datetime (snd r)) avg_t.
Proof.
  unfold pd_to_datetime. cbv zeta.
  destruct (forallb in_bounds _); intros H; inversion H. reflexivity.
Qed.

(** Peel a successful [pd.to_datetime] off [_identify]. *)
Ltac step_to_datetime H :=
  let s := fresh "s" in
  let x := fresh "x" in
  let Hx := fresh "Hx" in
  apply bind_ok in H; destruct H as (s & x & Hx & H);
  apply lift_ok in Hx; destruct Hx as [-> Hx];
  apply pd_to_datetime_ok in Hx; subst x.

(** An invariant of the accumulator that every iteration preserves
    holds when the loop returns. *)
Lemma for_each_invariant {St A S} (P : S -> Prop) (body : A -> S -> M St S) :
  forall xs acc s s' acc',
    (forall x a t t' a', In x xs -> P a -> body x a t = (t', Ok a') -> P a') ->
    P acc ->
    for_each xs body acc s = (s', Ok acc') ->
    P acc'.
Proof.
  induction xs as [|x xs IH]; simpl; intros acc s s' acc' Hbody HP H.
  - apply ret_ok in H. destruct H as [_ ->]. exact HP.
  - step_py H.
    eapply IH; [ | | exact H].
    + intros y a t t' a' Hy. apply Hbody. now right.
    + eapply Hbody; [now left | exact HP | exact Hx].
Qed.

(** ** Indexing *)

Lemma getitem_ok {A} (a : list A) i x :
  np.getitem a i = Ok x <-> nth_error a i = Some x.
Proof.
  unfold np.getitem. destruct (nth_error a i); split; intros H;
    inversion H; reflexivity.
Qed.

Lemma getitem_out_of_range {A} (a : list A) i :
  length a <= i -> np.getitem a i = Raise IndexError.
Proof.
  intros H. unfold np.getitem.
  apply nth_error_None in H. rewrite H. reflexivity.
Qed.

(** A successful selection lists, position by position, the selected
    elements. *)
Lemma take_ok {A} (a : list A) :
  forall idx l, np.take a idx = Ok l ->
                Forall2 (fun i x => nth_error a i = Some x) idx l.
Proof.
  induction idx as [|i idx IH]; simpl; intros l H.
  - inversion H. constructor.
  - step_result H. step_result H. inversion H; subst.
    constructor; [now apply getitem_ok | now apply IH].
Qed.

Lemma take_in {A} (a : list A) idx l x :
  np.take a idx = Ok l -> In x l -> In x a.
Proof.
  intros H. apply take_ok in H.
  induction H as [|i y idx l Hi _ IH]; simpl; [tauto|].
  intros [<-|Hin]; [eapply nth_error_In; eassumption | auto].
Qed.

Lemma take_out_of_range {A} (a : list A) :
  forall idx, (exists i, In i idx /\ length a <= i) ->
              np.take a idx = Raise IndexError.
Proof.
  induction idx as [|j idx IH]; intros (i & Hin & Hi); simpl in *; [tauto|].
  destruct (np.getitem a j) as [x|e] eqn:Ej; simpl.
  - destruct Hin as [->|Hin].
    + rewrite getitem_out_of_range in Ej by assumption. discriminate.
    + rewrite IH by eauto. reflexivity.
  - unfold np.getitem in Ej. destruct (nth_error a j); inversion Ej.
    reflexivity.
Qed.

Lemma where_from_bounds cond :
  forall k i, In i (np.where_from k cond) -> k <= i < k + length cond.
Proof.
  induction cond as [|b cond IH]; simpl; intros k i H; [tauto|].
  destruct b; simpl in H.
  - destruct H as [<-|H]; [lia|]. apply IH in H. lia.
  - apply IH in H. lia.
Qed.

(** [np.where] lists positions in ascending order. *)
Lemma where_from_sorted cond :
  forall k, StronglySorted lt (np.where_from k cond).
Proof.
  induction cond as [|b cond IH]; simpl; intros k; [constructor|].
  destruct b; [|apply IH].
  constructor; [apply IH|].
  apply Forall_forall. intros i Hi. apply where_from_bounds in Hi. lia.
Qed.

(** Selecting the positions where a predicate holds is filtering by
    it. *)
Lemma take_where_filter {A B} (f : A -> B) (p : A -> bool) :
  forall xs pre,
    np.take (map f (pre ++ xs)) (np.where_from (length pre) (map p xs))
    = Ok (map f (filter p xs)).
Proof.
  induction xs as [|x xs IH]; intros pre; simpl; [reflexivity|].
  assert (E : pre ++ x :: xs = (pre ++ [x]) ++ xs)
    by (rewrite <- app_assoc; reflexivity).
  assert (L : S (length pre) = length (pre ++ [x]))
    by (rewrite length_app; simpl; lia).
  assert (G : np.getitem (map f (pre ++ x :: xs)) (length pre) = Ok (f x)).
  { apply getitem_ok.
    rewrite map_app, nth_error_app2 by (rewrite length_map; lia).
    rewrite length_map, Nat.sub_diag. reflexivity. }
  destruct (p x); simpl.
  - rewrite G. simpl. rewrite E, L, IH. reflexivity.
  - rewrite E, L, IH. reflexivity.
Qed.

Lemma take_where_nth {A} (a : list A) (p : A -> bool) k i x :
  nth_error (np.where_from 0 (map p a)) k = Some i ->
  nth_error a i = Some x ->
  nth_error (filter p a) k = Some x.
Proof.
  intros Hk Hi.
  pose proof (take_where_filter (fun y => y) p a []) as T.
  simpl in T. rewrite !map_id in T. apply take_ok in T.
  revert k Hk. induction T as [|j y idx l Hj _ IH]; intros k Hk.
  - destruct k; discriminate.
  - destruct k as [|k]; simpl in *.
    + inversion Hk; subst. congruence.
    + auto.
Qed.

Section Properties.

Context {geo : GeoStack}.

(** ** Point attribution *)

Lemma where_from_length {A} (p : A -> bool) xs :
  forall k, length (np.where_from k (map p xs)) = length (filter p xs).
Proof.
  induction xs as [|x xs IH]; simpl; intros k; [reflexivity|].
  destruct (p x); simpl; rewrite IH; reflexivity.
Qed.

Lemma attribution_loop (inside : Geometry -> bool) :
  forall gs k acc,
    fold_left
      (fun line_points_in_match (it : nat * Geometry) =>
         let '(pt_idx, pt) := it in
         if inside pt then line_points_in_match ++ [pt_idx]
         else line_points_in_match)
      (combine (seq k (length gs)) gs) acc
    = acc ++ np.where_from k (map inside gs).
Proof.
  induction gs as [|g gs IH]; simpl; intros k acc.
  - now rewrite app_nil_r.
  - rewrite IH. destruct (inside g); [|reflexivity].
    rewrite <- app_assoc. reflexivity.
Qed.

(** The loop of lines 252-256 lists the positions of the samples that
    pass the attribution test. *)
Lemma points_in_match_where cfg MATCH line_points :
  _identify_points_in_match cfg MATCH line_points
  = np.where_from 0 (map (in_match cfg MATCH) line_points).
Proof.
  unfold _identify_points_in_match, enumerate.
  rewrite attribution_loop. simpl. rewrite map_map. reflexivity.
Qed.

Lemma points_in_match_length cfg MATCH line_points :
  length (_identify_points_in_match cfg MATCH line_points)
  = length (attributed cfg MATCH line_points).
Proof. rewrite points_in_match_where. apply where_from_length. Qed.

Lemma take_attributed {B} (f : pts_row -> B) cfg MATCH line_points :
  np.take (map f line_points) (_identify_points_in_match cfg MATCH line_points)
  = Ok (map f (attributed cfg MATCH line_points)).
Proof.
  rewrite points_in_match_where.
  exact (take_where_filter f (in_match cfg MATCH) line_points []).
Qed.

(** The sample picked through a position of the attribution list is
    the sample at that place among the attributed ones. *)
Lemma attributed_nth {B} (f : pts_row -> B) cfg MATCH line_points k i v :
  np.getitem (_identify_points_in_match cfg MATCH line_points) k = Ok i ->
  np.getitem (map f line_points) i = Ok v ->
  exists r, nth_error (attributed cfg MATCH line_points) k = Some r /\ f r = v.
Proof.
  rewrite points_in_match_where. intros Hk Hi.
  apply getitem_ok in Hk. apply getitem_ok in Hi.
  rewrite nth_error_map in Hi.
  destruct (nth_error line_points i) as [r|] eqn:Er; [|discriminate].
  inversion Hi; subst. exists r. split; [|reflexivity].
  eapply take_where_nth; eassumption.
Qed.

Lemma getitem_map_hd {B} (f : pts_row -> B) (l : list pts_row) v :
  np.getitem (map f l) 0 = Ok v -> exists r, hd_error l = Some r /\ v = f r.
Proof.
  destruct l as [|r l]; simpl; intros H; [discriminate|].
  inversion H. eauto.
Qed.

Lemma getitem_hd {A} (l : list A) v :
  np.getitem l 0 = Ok v -> hd_error l = Some v.
Proof. destruct l; simpl; intros H; inversion H; reflexivity. Qed.

(** ** The synthesizers *)

Lemma synthesis_tail cfg MATCH p1 p2 i1 t1 i2 t2 us1 us2 id1 id2 f1 f1' f2 f2' :
  np.getitem (_identify_points_in_match cfg MATCH p1)
             (length (_identify_points_in_match cfg MATCH p1) / 2) = Ok i1 ->
  np.getitem (map time p1) i1 = Ok t1 ->
  np.getitem (_identify_points_in_match cfg MATCH p2)
             (length (_identify_points_in_match cfg MATCH p2) / 2) = Ok i2 ->
  np.getitem (map time p2) i2 = Ok t2 ->
  fromtimestamp t1 = Ok us1 ->
  fromtimestamp t2 = Ok us2 ->
  np.getitem (map id p1) 0 = Ok id1 ->
  np.getitem (map id p2) 0 = Ok id2 ->
  np.getitem (map fidx (attributed cfg MATCH p1)) 0 = Ok f1 ->
  iloc_last (map fidx (attributed cfg MATCH p1)) = Ok f1' ->
  np.getitem (map fidx (attributed cfg MATCH p2)) 0 = Ok f2 ->
  iloc_last (map fidx (attributed cfg MATCH p2)) = Ok f2' ->
  synthesized cfg MATCH p1 p2
    {| l1p_1 := id1; l1p_2 := id2;
       rng1_0 := f1; rng1_1 := f1'; rng2_0 := f2; rng2_1 := f2';
       match_dt := np.round3 (hours_between us1 us2) |}.
Proof.
  intros Hi1 Ht1 Hi2 Ht2 Hu1 Hu2 Hid1 Hid2 Hf1 Hf1' Hf2 Hf2'.
  rewrite points_in_match_length in Hi1, Hi2.
  destruct (attributed_nth time _ _ _ _ _ _ Hi1 Ht1) as (r1 & Hr1 & <-).
  destruct (attributed_nth time _ _ _ _ _ _ Hi2 Ht2) as (r2 & Hr2 & <-).
  unfold synthesized; simpl.
  repeat split;
    try (apply getitem_map_hd; assumption);
    try (apply getitem_hd; assumption);
    try assumption.
  exists r1, r2, us1, us2. auto.
Qed.

Lemma identify_XOs_inv cfg MATCH p1 p2 a :
  _identify_XOs cfg MATCH p1 p2 = Ok (Some a) ->
  1 <= length (attributed cfg MATCH p1) /\
  1 <= length (attributed cfg MATCH p2) /\
  synthesized cfg MATCH p1 p2 a.
Proof.
  unfold _identify_XOs. cbv zeta.
  destruct (0 <? length (_identify_points_in_match cfg MATCH p1)) eqn:E1;
    [|discriminate].
  destruct (0 <? length (_identify_points_in_match cfg MATCH p2)) eqn:E2;
    [|discriminate].
  apply Nat.ltb_lt in E1, E2. rewrite points_in_match_length in E1, E2.
  cbn [andb]. intros H.
  rewrite !take_attributed in H. cbn [rbind] in H.
  repeat step_result H.
  inversion H; subst; clear H.
  split; [lia|]. split; [lia|].
  eapply synthesis_tail; eassumption.
Qed.

Lemma identify_OTMs_inv cfg MATCH p1 p2 a :
  _identify_OTMs cfg MATCH p1 p2 = Ok (Some a) ->
  51 <= length (attributed cfg MATCH p1) /\
  51 <= length (attributed cfg MATCH p2) /\
  synthesized cfg MATCH p1 p2 a.
Proof.
  unfold _identify_OTMs. cbv zeta.
  destruct (50 <? length (_identify_points_in_match cfg MATCH p1)) eqn:E1;
    [|discriminate].
  destruct (50 <? length (_identify_points_in_match cfg MATCH p2)) eqn:E2;
    [|discriminate].
  apply Nat.ltb_lt in E1, E2. rewrite points_in_match_length in E1, E2.
  cbn [andb]. intros H.
  rewrite !take_attributed in H. cbn [rbind] in H.
  repeat step_result H.
  inversion H; subst; clear H.
  split; [lia|]. split; [lia|].
  eapply synthesis_tail; eassumption.
Qed.

(** ** The matching loops *)

Lemma is_Point_true m : is_Point m = true <-> geom_type m = Point.
Proof.
  unfold is_Point. destruct (geom_type m); split; congruence.
Qed.

Lemma is_LineString_true m : is_LineString m = true <-> geom_type m = LineString.
Proof.
  unfold is_LineString. destruct (geom_type m); split; congruence.
Qed.

Lemma in_enumerate {A} (xs : list A) i x :
  In (i, x) (enumerate xs) -> In x xs.
Proof. unfold enumerate. apply in_combine_r. Qed.

Lemma combine_snoc {A B} (xs : list A) (ys : list B) x y :
  length xs = length ys ->
  combine (xs ++ [x]) (ys ++ [y]) = combine xs ys ++ [(x, y)].
Proof.
  revert ys. induction xs as [|x' xs IH]; intros [|y' ys] H;
    simpl in *; try discriminate; [reflexivity|].
  rewrite IH by lia. reflexivity.
Qed.

(** One pair of tracks leaves the accumulators as they were or appends
    one row, and that row comes from a synthesizer called on an
    intersection of the configured shape. *)
Lemma identify_pair_cases cfg P1 P2 xo_id1 lin1 idx2 xo_id2 lin2
      attributes geometries s s' acc' :
  identify_pair cfg P1 P2 xo_id1 lin1 (idx2, (xo_id2, lin2))
                (attributes, geometries) s = (s', Ok acc') ->
  acc' = (attributes, geometries) \/
  exists a line1 line2 m,
    lin1 = Some line1 /\ lin2 = Some line2 /\
    _identify_intersection cfg line1 line2 = Some m /\
    acc' = (attributes ++ [a], geometries ++ [Some m]) /\
    ((geom_type m = Point /\ matchtype cfg = "xo"%string /\
      _identify_XOs cfg m (rows_of P1 xo_id1) (rows_of P2 xo_id2) = Ok (Some a))
     \/
     (geom_type m = LineString /\ matchtype cfg = "otm"%string /\
      _identify_OTMs cfg m (rows_of P1 xo_id1) (rows_of P2 xo_id2) = Ok (Some a))).
Proof.
  unfold identify_pair.
  destruct lin1 as [line1|]; [|intros H; apply ret_ok in H; tauto].
  destruct lin2 as [line2|]; [|intros H; apply ret_ok in H; tauto].
  cbv zeta. intros H. step_py H.
  destruct x as [a|]; [|apply ret_ok in H; tauto].
  apply ret_ok in H. destruct H as [-> ->].
  right. exists a, line1, line2.
  destruct (_identify_intersection cfg line1 line2) as [m|] eqn:Em.
  - exists m. repeat split; try reflexivity.
    destruct (is_Point m && (matchtype cfg =? "xo")%string) eqn:Ex.
    + apply andb_true_iff in Ex. destruct Ex as [Ep Ex].
      apply lift_ok in Hx. left.
      repeat split; [now apply is_Point_true | now apply String.eqb_eq | tauto].
    + destruct (is_LineString m && (matchtype cfg =? "otm")%string) eqn:Eo.
      * apply andb_true_iff in Eo. destruct Eo as [El Eo].
        apply lift_ok in Hx. right.
        repeat split;
          [now apply is_LineString_true | now apply String.eqb_eq | tauto].
      * step_py Hx. apply ret_ok in Hx. destruct Hx; discriminate.
  - step_py Hx. apply ret_ok in Hx. destruct Hx; discriminate.
Qed.

Lemma identify_pair_ok cfg g1 g2 xo_id1 lin1 it2 acc s s' acc' :
  In (xo_id1, lin1) (lin g1) ->
  In (snd it2) (lin g2) ->
  accumulators_ok cfg g1 g2 acc ->
  identify_pair cfg (pts g1) (pts g2) xo_id1 lin1 it2 acc s = (s', Ok acc') ->
  accumulators_ok cfg g1 g2 acc'.
Proof.
  destruct it2 as [idx2 [xo_id2 lin2]], acc as [attributes geometries].
  simpl snd. intros H1 H2 [Hlen Hall] H.
  apply identify_pair_cases in H.
  destruct H as [->|(a & line1 & line2 & m & -> & -> & Hm & -> & Hsyn)].
  - split; assumption.
  - unfold accumulators_ok in *. simpl in *. split.
    + rewrite !length_app. simpl. lia.
    + rewrite combine_snoc by assumption.
      apply Forall_app. split; [assumption|].
      constructor; [|constructor].
      exists xo_id1, line1, xo_id2, line2, m. simpl. auto.
Qed.

Lemma identify_line_ok cfg g1 g2 dt1_df dt2_df n it1 acc s s' acc' :
  In (snd it1) (lin g1) ->
  accumulators_ok cfg g1 g2 acc ->
  identify_line cfg (pts g1) (pts g2) (lin g2) dt1_df dt2_df n it1 acc s
  = (s', Ok acc') ->
  accumulators_ok cfg g1 g2 acc'.
Proof.
  destruct it1 as [idx1 [xo_id1 lin1]]. simpl snd.
  intros H1 Hacc H. unfold identify_line in H.
  do 4 step_py H. apply lift_ok in Hx2. destruct Hx2 as [_ Hsub].
  eapply for_each_invariant; [ | exact Hacc | exact H].
  intros it2 a t t' a' Hin Ha Hbody.
  eapply identify_pair_ok; [exact H1 | | exact Ha | exact Hbody].
  pose proof (take_in _ _ _ _ Hsub Hin) as Hen.
  destruct it2 as [idx2 row2]. eapply in_enumerate. exact Hen.
Qed.

(** Every row of the frame [_identify] returns was appended by the
    inner loop for some pair of polylines. *)
Lemma identify_rows_emitted cfg g1 g2 s s' out :
  _identify cfg g1 g2 s = (s', Ok out) ->
  Forall (emitted_by cfg g1 g2) (rows out).
Proof.
  unfold _identify. cbv zeta. intros H.
  step_to_datetime H. step_to_datetime H. step_py H.
  assert (Hacc : accumulators_ok cfg g1 g2 x).
  { eapply for_each_invariant; [ | | exact Hx].
    - intros it1 a t t' a' Hin Ha Hbody.
      eapply identify_line_ok; [ | exact Ha | exact Hbody].
      destruct it1 as [idx1 row1]. eapply in_enumerate. exact Hin.
    - split; [reflexivity | constructor]. }
  destruct x as [attributes geometries]. step_py H.
  apply lift_ok in H. destruct H as [_ H].
  unfold GeoDataFrame in H.
  destruct (length attributes =? length geometries); [|discriminate].
  inversion H; subst; simpl. apply Hacc.
Qed.

(** ** Rounding *)

Local Open Scope Q_scope.

Lemma rint_close q : Qabs (inject_Z (np.rint q) - q) <= 1 # 2.
Proof.
  unfold np.rint. cbv zeta.
  pose proof (Qfloor_le q) as Hlo.
  pose proof (Qlt_floor q) as Hhi.
  set (f := Qfloor q) in *.
  assert (E : inject_Z (f + 1) == inject_Z f + 1).
  { rewrite inject_Z_plus. reflexivity. }
  clearbody f.
  destruct (Qcompare_spec (q - inject_Z f) (1 # 2)) as [H|H|H].
  - destruct (Z.even f).
    + apply Qabs_Qle_condition. split; lra.
    + apply Qabs_Qle_condition. rewrite E. split; lra.
  - apply Qabs_Qle_condition. split; lra.
  - apply Qabs_Qle_condition. rewrite E. split; lra.
Qed.

Lemma rint_nonneg q : 0 <= q -> (0 <= np.rint q)%Z.
Proof.
  intros H. unfold np.rint. cbv zeta.
  assert (Hf : (0 <= Qfloor q)%Z).
  { change 0%Z with (Qfloor 0). apply Qfloor_resp_le. exact H. }
  destruct (Qcompare _ _); [destruct (Z.even _)| |]; lia.
Qed.

Lemma pow2_pos e : 0 < np.pow2 e.
Proof. unfold np.pow2. apply Qpower_0_lt. reflexivity. Qed.

Lemma float64_pos_nonneg a : 0 <= a -> 0 <= np.float64_pos a.
Proof.
  intros H. unfold np.float64_pos.
  destruct (Qeq_bool a 0); [apply Qle_refl|]. cbv zeta.
  set (e := Z.max _ _).
  rewrite Qred_correct.
  pose proof (pow2_pos e) as Hp.
  apply Qmult_le_0_compat; [|apply Qlt_le_weak; exact Hp].
  change 0 with (inject_Z 0). rewrite <- Zle_Qle.
  apply rint_nonneg.
  apply Qle_shift_div_l; [exact Hp|]. lra.
Qed.

Lemma float64_nonneg q : 0 <= q -> 0 <= np.float64 q.
Proof.
  intros H. unfold np.float64.
  assert (Hn : (0 <= Qnum q)%Z).
  { destruct q as [n d]. unfold Qle in H. simpl in *. lia. }
  destruct (Z.ltb_spec (Qnum q) 0); [lia|].
  apply float64_pos_nonneg, Qabs_nonneg.
Qed.

Lemma Qabs_opp_eq q : Qabs (Qopp q) = Qabs q.
Proof. destruct q as [n d]. unfold Qabs, Qopp. simpl. now rewrite Z.abs_opp. Qed.

Lemma Qopp_opp_eq q : Qopp (Qopp q) = q.
Proof. destruct q as [n d]. unfold Qopp. simpl. now rewrite Z.opp_involutive. Qed.

Lemma float64_opp q : np.float64 (Qopp q) = Qopp (np.float64 q).
Proof.
  unfold np.float64. rewrite Qabs_opp_eq.
  destruct q as [n d]. simpl Qnum.
  destruct n as [|p|p]; simpl.
  - reflexivity.
  - reflexivity.
  - now rewrite Qopp_opp_eq.
Qed.

(** The leading bit of a positive rational is not above it. *)
Lemma ilog2_le a : 0 < a -> np.pow2 (np.ilog2 a) <= a.
Proof.
  intros Ha. unfold np.ilog2. cbv zeta.
  destruct (Qle_bool (np.pow2 (Z.log2 (Qnum a) - Z.log2 (Zpos (Qden a)))) a) eqn:E.
  - apply Qle_bool_iff. exact E.
  - clear E. destruct a as [n d]. cbn [Qnum Qden].
    assert (Hn : (0 < n)%Z) by (unfold Qlt in Ha; simpl in Ha; lia).
    pose proof (Z.log2_spec n Hn) as [Hl _].
    pose proof (Z.log2_spec (Zpos d) (Pos2Z.is_pos d)) as [_ Hd].
    pose proof (Z.log2_nonneg n) as HL.
    pose proof (Z.log2_nonneg (Zpos d)) as HD.
    set (L := Z.log2 n) in *. set (D := Z.log2 (Zpos d)) in *.
    clearbody L D.
    unfold np.pow2.
    replace (L - D - 1)%Z with (L - Z.succ D)%Z by lia.
    rewrite Qpower_minus by (intro F; discriminate F).
    rewrite <- (Zpower_Qpower 2 L) by exact HL.
    rewrite <- (Zpower_Qpower 2 (Z.succ D)) by lia.
    assert (Hp : (0 < 2 ^ Z.succ D)%Z) by (apply Z.pow_pos_nonneg; lia).
    assert (Hpp : (0 < 2 ^ L)%Z) by (apply Z.pow_pos_nonneg; lia).
    apply Qle_shift_div_r.
    + change 0 with (inject_Z 0). rewrite <- Zlt_Qlt. exact Hp.
    + unfold Qle, Qmult, inject_Z. cbn [Qnum Qden].
      set (X := (2 ^ L)%Z) in *. set (Y := (2 ^ Z.succ D)%Z) in *.
      clearbody X Y. nia.
Qed.

(** Half the spacing of binary64 numbers relative to their size. *)
Definition eps : Q := 1 # 9007199254740992.

Lemma float64_pos_close a :
  0 <= a -> Qabs (np.float64_pos a - a) <= a * eps + np.pow2 (-1075).
Proof.
  intros Ha. unfold np.float64_pos.
  pose proof (pow2_pos (-1075)) as Ht.
  destruct (Qeq_bool a 0) eqn:E0.
  - apply Qeq_bool_iff in E0. rewrite E0.
    apply Qabs_Qle_condition. unfold eps. split; lra.
  - assert (Hpos : 0 < a).
    { apply Qeq_bool_neq in E0. lra. }
    cbv zeta. set (e := Z.max (np.ilog2 a - 52) (-1074)).
    rewrite Qred_correct.
    pose proof (pow2_pos e) as Hp.
    pose proof (rint_close (a / np.pow2 e)) as Hr.
    set (m := inject_Z (np.rint (a / np.pow2 e))) in *.
    assert (Hb : Qabs (m * np.pow2 e - a) <= np.pow2 e * (1 # 2)).
    { assert (Ea : a == a / np.pow2 e * np.pow2 e).
      { field. lra. }
      set (y := a / np.pow2 e) in *.
      assert (Em : m * np.pow2 e - a == (m - y) * np.pow2 e).
      { rewrite Ea at 1. ring. }
      rewrite Em, Qabs_Qmult, (Qabs_pos (np.pow2 e)) by lra.
      rewrite (Qmult_comm (np.pow2 e)).
      apply Qmult_le_compat_r; [exact Hr | lra]. }
    eapply Qle_trans; [exact Hb|].
    destruct (Z.max_spec (np.ilog2 a - 52) (-1074)) as [[Hlt He]|[Hlt He]];
      fold e in He; rewrite He.
    + assert (Eh : np.pow2 (-1074) * (1 # 2) == np.pow2 (-1075)).
      { unfold np.pow2. change (-1075)%Z with (-1074 + -1)%Z.
        rewrite (Qpower_plus 2 (-1074) (-1)) by (intro F; discriminate F).
        reflexivity. }
      rewrite Eh. assert (0 <= a * eps) by (unfold eps; nra). lra.
    + pose proof (ilog2_le a Hpos) as Hl.
      assert (Eh : np.pow2 (np.ilog2 a - 52) * (1 # 2) == np.pow2 (np.ilog2 a) * eps).
      { unfold np.pow2. replace (np.ilog2 a - 52)%Z with (np.ilog2 a + -52)%Z by lia.
        rewrite Qpower_plus by (intro F; discriminate F).
        unfold eps. change (2 ^ (-52)) with (1 # 4503599627370496). ring. }
      rewrite Eh.
      assert (np.pow2 (np.ilog2 a) * eps <= a * eps).
      { apply Qmult_le_compat_r; [exact Hl | unfold eps; lra]. }
      lra.
Qed.

Lemma float64_close q :
  Qabs (np.float64 q - q) <= Qabs q * eps + np.pow2 (-1075).
Proof.
  unfold np.float64.
  pose proof (float64_pos_close (Qabs q) (Qabs_nonneg q)) as H.
  destruct (Z.ltb_spec (Qnum q) 0) as [Hn|Hn].
  - assert (Hq : q < 0). { destruct q as [n d]. unfold Qlt. simpl in *. lia. }
    assert (E : Qabs q == - q) by (apply Qabs_neg; lra).
    set (x := np.float64_pos (Qabs q)) in *. set (A := Qabs q) in *.
    assert (E2 : - x - q == - (x - A)) by (clearbody x A; lra).
    rewrite E2, Qabs_opp. exact H.
  - assert (Hq : 0 <= q). { destruct q as [n d]. unfold Qle. simpl in *. lia. }
    assert (E : Qabs q == q) by (apply Qabs_pos; exact Hq).
    set (x := np.float64_pos (Qabs q)) in *. set (A := Qabs q) in *.
    assert (E2 : x - q == x - A) by (clearbody x A; lra).
    rewrite E2. exact H.
Qed.

Lemma ilog2_lt a : 0 < a -> a < np.pow2 (np.ilog2 a + 1).
Proof.
  intros Ha. unfold np.ilog2. cbv zeta.
  destruct (Qle_bool (np.pow2 (Z.log2 (Qnum a) - Z.log2 (Zpos (Qden a)))) a) eqn:E.
  - clear E. destruct a as [n d]. cbn [Qnum Qden].
    assert (Hn : (0 < n)%Z) by (unfold Qlt in Ha; simpl in Ha; lia).
    pose proof (Z.log2_spec n Hn) as [_ Hl].
    pose proof (Z.log2_spec (Zpos d) (Pos2Z.is_pos d)) as [Hd _].
    pose proof (Z.log2_nonneg n) as HL.
    pose proof (Z.log2_nonneg (Zpos d)) as HD.
    set (L := Z.log2 n) in *. set (D := Z.log2 (Zpos d)) in *.
    clearbody L D.
    unfold np.pow2.
    replace (L - D + 1)%Z with (Z.succ L - D)%Z by lia.
    rewrite Qpower_minus by (intro F; discriminate F).
    rewrite <- (Zpower_Qpower 2 (Z.succ L)) by lia.
    rewrite <- (Zpower_Qpower 2 D) by exact HD.
    assert (Hp : (0 < 2 ^ D)%Z) by (apply Z.pow_pos_nonneg; lia).
    apply Qlt_shift_div_l.
    + change 0 with (inject_Z 0). rewrite <- Zlt_Qlt. exact Hp.
    + unfold Qlt, Qmult, inject_Z. cbn [Qnum Qden].
      set (X := (2 ^ Z.succ L)%Z) in *. set (Y := (2 ^ D)%Z) in *.
      clearbody X Y. nia.
  - replace (Z.log2 (Qnum a) - Z.log2 (Zpos (Qden a)) - 1 + 1)%Z
      with (Z.log2 (Qnum a) - Z.log2 (Zpos (Qden a)))%Z by lia.
    apply Qnot_le_lt. intros H. apply Qle_bool_iff in H. congruence.
Qed.

Lemma rint_le_bound y (b : Z) : y <= inject_Z b -> (np.rint y <= b)%Z.
Proof.
  intros H. pose proof (rint_close y) as Hc.
  apply Qabs_Qle_condition in Hc.
  assert (Hq : inject_Z (np.rint y) < inject_Z (b + 1)).
  { rewrite inject_Z_plus. change (inject_Z 1) with 1. lra. }
  rewrite <- Zlt_Qlt in Hq. lia.
Qed.

(** A value of [float64] has a significand of at most 53 bits and an
    exponent of at least -1074. *)
Lemma float64_is_binary64 q :
  exists m e, np.float64 q == inject_Z m * np.pow2 e /\
              (Z.abs m <= 2 ^ 53)%Z /\ (-1074 <= e)%Z.
Proof.
  assert (P : forall a, 0 <= a ->
            exists m e, np.float64_pos a == inject_Z m * np.pow2 e /\
                        (0 <= m <= 2 ^ 53)%Z /\ (-1074 <= e)%Z).
  { intros a Ha. unfold np.float64_pos.
    destruct (Qeq_bool a 0) eqn:E0.
    - exists 0%Z, 0%Z. split; [reflexivity | lia].
    - assert (Hpos : 0 < a) by (apply Qeq_bool_neq in E0; lra).
      cbv zeta. set (e := Z.max (np.ilog2 a - 52) (-1074)).
      exists (np.rint (a / np.pow2 e)), e.
      split; [apply Qred_correct|].
      pose proof (pow2_pos e) as Hp.
      split; [|unfold e; lia]. split.
      + apply rint_nonneg. apply Qle_shift_div_l; [exact Hp | lra].
      + apply rint_le_bound. apply Qle_shift_div_r; [exact Hp|].
        pose proof (ilog2_lt a Hpos) as Hu.
        apply Qlt_le_weak. eapply Qlt_le_trans; [exact Hu|].
        rewrite (Zpower_Qpower 2 53) by lia.
        change (inject_Z 2) with 2.
        fold (np.pow2 53). unfold np.pow2.
        rewrite <- Qpower_plus by (intro F; discriminate F).
        apply Qpower_le_compat_l; [unfold e; lia | lra]. }
  unfold np.float64.
  destruct (P (Qabs q) (Qabs_nonneg q)) as (m & e & E & Hm & He).
  destruct (Qnum q <? 0)%Z.
  - exists (- m)%Z, e. split; [|lia].
    rewrite E, inject_Z_opp. ring.
  - exists m, e. split; [exact E | lia].
Qed.

Lemma tiny_small : np.pow2 (-1075) <= eps.
Proof. apply Qle_bool_iff. vm_compute. reflexivity. Qed.

Lemma round3_nonneg x : 0 <= x -> 0 <= np.round3 x.
Proof.
  intros H. unfold np.round3, np.true_divide, np.multiply.
  apply float64_nonneg.
  assert (Hm : 0 <= np.float64 (x * 1000)) by (apply float64_nonneg; lra).
  assert (Hr : (0 <= np.rint (np.float64 (x * 1000)))%Z)
    by (apply rint_nonneg; exact Hm).
  assert (Hq : 0 <= inject_Z (np.rint (np.float64 (x * 1000)))).
  { change 0 with (inject_Z 0). rewrite <- Zle_Qle. exact Hr. }
  apply Qle_shift_div_l; [reflexivity | lra].
Qed.

(** [np.round(x, 3)] is within half a thousandth of [x], up to the
    rounding of its three float operations. *)
Lemma round3_close x :
  0 <= x ->
  Qabs (np.round3 x - x) <= (1 # 2000) + (x + 1) * (1 # 2251799813685248).
Proof.
  intros Hx. unfold np.round3, np.true_divide, np.multiply.
  pose proof (float64_close (x * 1000)) as Hy.
  assert (Hy0 : 0 <= np.float64 (x * 1000)) by (apply float64_nonneg; lra).
  rewrite (Qabs_pos (x * 1000)) in Hy by lra.
  set (y := np.float64 (x * 1000)) in *.
  pose proof (rint_close y) as Hk.
  pose proof (rint_nonneg y Hy0) as Hk0.
  assert (Hq : 0 <= inject_Z (np.rint y)).
  { change 0 with (inject_Z 0). rewrite <- Zle_Qle. exact Hk0. }
  set (k := inject_Z (np.rint y)) in *.
  pose proof (float64_close (k / 1000)) as Hr.
  assert (Hk1 : 0 <= k / 1000) by (apply Qle_shift_div_l; [reflexivity | lra]).
  rewrite (Qabs_pos (k / 1000)) in Hr by exact Hk1.
  set (r := np.float64 (k / 1000)) in *.
  pose proof tiny_small as Ht. pose proof (pow2_pos (-1075)) as Ht0.
  set (eta := np.pow2 (-1075)) in *.
  assert (Ek : k / 1000 == k * (1 # 1000)) by (field).
  rewrite Ek in Hr. clear Ek Hk1.
  clearbody r k y eta.
  apply Qabs_Qle_condition in Hy. apply Qabs_Qle_condition in Hk.
  apply Qabs_Qle_condition in Hr. unfold eps in *.
  apply Qabs_Qle_condition. split; lra.
Qed.

Lemma hours_between_nonneg us1 us2 : 0 <= hours_between us1 us2.
Proof. apply Qabs_nonneg. Qed.

Lemma hours_apart_nonneg us1 us2 : 0 <= hours_apart us1 us2.
Proof. apply Qabs_nonneg. Qed.

Lemma Qabs_diff_le a b c : Qabs (a - b) <= c -> Qabs (Qabs a - Qabs b) <= c.
Proof.
  intros H. eapply Qle_trans; [|exact H].
  apply Qabs_Qle_condition. split.
  - pose proof (Qabs_triangle_reverse b a) as T.
    setoid_replace (a - b) with (- (b - a)) by ring.
    rewrite Qabs_opp. lra.
  - apply Qabs_triangle_reverse.
Qed.

(** The float offset agrees with the exact one up to the rounding of
    its two divisions. *)
Lemma hours_between_close us1 us2 :
  Qabs (hours_between us1 us2 - hours_apart us1 us2)
  <= (hours_apart us1 us2 + 1) * (1 # 2251799813685248).
Proof.
  unfold hours_between, hours_apart, np.true_divide, total_seconds.
  set (d := inject_Z (us1 - us2)).
  pose proof (float64_close (d / 1000000)) as Hs.
  set (s := np.float64 (d / 1000000)) in *.
  pose proof (float64_close (s / 3600)) as Hh.
  set (h := np.float64 (s / 3600)) in *.
  pose proof tiny_small as Ht. pose proof (pow2_pos (-1075)) as Ht0.
  set (eta := np.pow2 (-1075)) in *.
  assert (Ex : Qabs (d / 3600000000) == Qabs (d / 1000000) * (1 # 3600)).
  { setoid_replace (d / 3600000000) with (d / 1000000 * (1 # 3600)) by field.
    rewrite Qabs_Qmult. reflexivity. }
  assert (Es : Qabs (s / 3600) == Qabs s * (1 # 3600)).
  { setoid_replace (s / 3600) with (s * (1 # 3600)) by field.
    rewrite Qabs_Qmult. reflexivity. }
  pose proof (Qabs_diff_le _ _ _ Hs) as Hs'.
  pose proof (Qabs_diff_le _ _ _ Hh) as Hh'.
  rewrite Es in Hh'. rewrite Ex.
  pose proof (Qabs_nonneg (d / 1000000)) as Hx0.
  pose proof (Qabs_nonneg s) as Hs0.
  set (X := Qabs (d / 1000000)) in *. set (S := Qabs s) in *.
  set (H := Qabs h) in *.
  clearbody X S H eta.
  apply Qabs_Qle_condition in Hs'. apply Qabs_Qle_condition in Hh'.
  unfold eps in *.
  apply Qabs_Qle_condition. split; lra.
Qed.

(** The rounded float offset against the exact offset. *)
Lemma offset_close us1 us2 :
  Qabs (np.round3 (hours_between us1 us2) - hours_apart us1 us2)
  <= (1 # 2000) + (hours_apart us1 us2 + 1) * (1 # 562949953421312).
Proof.
  pose proof (round3_close _ (hours_between_nonneg us1 us2)) as Hr.
  pose proof (hours_between_close us1 us2) as Hb.
  pose proof (hours_apart_nonneg us1 us2) as Ha.
  pose proof (hours_between_nonneg us1 us2) as Hh.
  set (r := np.round3 (hours_between us1 us2)) in *.
  set (h := hours_between us1 us2) in *.
  set (a := hours_apart us1 us2) in *.
  clearbody r h a.
  apply Qabs_Qle_condition in Hr. apply Qabs_Qle_condition in Hb.
  apply Qabs_Qle_condition. split; lra.
Qed.

Lemma trunc_close t : Qabs (t - inject_Z (trunc t)) <= 1.
Proof.
  unfold trunc. destruct (Qle_bool 0 t).
  - pose proof (Qfloor_le t). pose proof (Qlt_floor t) as Hhi.
    rewrite inject_Z_plus in Hhi. change (inject_Z 1) with 1 in Hhi.
    apply Qabs_Qle_condition. split; lra.
  - pose proof (Qle_ceiling t) as Hhi. pose proof (Qceiling_lt t) as Hlo.
    set (c := Qceiling t) in *. clearbody c.
    assert (E : inject_Z (c - 1) == inject_Z c - 1).
    { unfold Z.sub. rewrite inject_Z_plus. reflexivity. }
    rewrite E in Hlo.
    apply Qabs_Qle_condition. split; lra.
Qed.

(** The instant [fromtimestamp] returns is within half a microsecond of
    the timestamp, up to the rounding of the float product. *)
Lemma fromtimestamp_close t us :
  fromtimestamp t = Ok us ->
  Qabs (inject_Z us - t * 1000000) <= (1 # 2) + (1 # 4294967296).
Proof.
  unfold fromtimestamp. cbv zeta.
  set (f := np.multiply (t - inject_Z (trunc t)) 1000000).
  destruct ((datetime_min <=? trunc t * 1000000 + np.rint f)%Z
            && (trunc t * 1000000 + np.rint f <=? datetime_max)%Z);
    intros H; inversion H. clear H.
  rewrite inject_Z_plus, inject_Z_mult.
  change (inject_Z 1000000) with 1000000.
  pose proof (rint_close f) as Hr.
  pose proof (trunc_close t) as Ht.
  unfold f, np.multiply in *.
  pose proof (float64_close ((t - inject_Z (trunc t)) * 1000000)) as Hf.
  rewrite Qabs_Qmult in Hf. change (Qabs 1000000) with 1000000 in Hf.
  pose proof tiny_small as Hs. pose proof (pow2_pos (-1075)) as Hs0.
  set (eta := np.pow2 (-1075)) in *.
  set (A := Qabs (t - inject_Z (trunc t))) in *.
  set (y := np.float64 ((t - inject_Z (trunc t)) * 1000000)) in *.
  set (k := inject_Z (np.rint y)) in *.
  set (i := inject_Z (trunc t)) in *.
  clearbody eta A y k i.
  apply Qabs_Qle_condition in Hr. apply Qabs_Qle_condition in Hf.
  unfold eps in *.
  apply Qabs_Qle_condition. split; lra.
Qed.

Lemma Qmult_opp_eq x y : Qmult (Qopp x) y = Qopp (Qmult x y).
Proof.
  destruct x as [n d], y as [n' d']. unfold Qmult, Qopp. simpl.
  now rewrite Z.mul_opp_l.
Qed.

Lemma hours_between_sym us1 us2 : hours_between us1 us2 = hours_between us2 us1.
Proof.
  unfold hours_between, np.true_divide, total_seconds.
  replace (us2 - us1)%Z with (- (us1 - us2))%Z by lia.
  change (inject_Z (- (us1 - us2))) with (Qopp (inject_Z (us1 - us2))).
  unfold Qdiv.
  now rewrite Qmult_opp_eq, float64_opp, Qmult_opp_eq, float64_opp, Qabs_opp_eq.
Qed.

Local Close Scope Q_scope.

(** ** What a match row says about its pair of tracks *)

Lemma rows_of_hd_id POINTS k r :
  hd_error (rows_of POINTS k) = Some r -> id r = k.
Proof.
  intros H. assert (Hin : In r (rows_of POINTS k)).
  { destruct (rows_of POINTS k); inversion H; subst. now left. }
  apply filter_In in Hin. destruct Hin as [_ Hid].
  now apply String.eqb_eq.
Qed.

Lemma synthesized_ids cfg m P1 P2 k1 k2 a :
  synthesized cfg m (rows_of P1 k1) (rows_of P2 k2) a ->
  l1p_1 a = k1 /\ l1p_2 a = k2.
Proof.
  intros ((r1 & Hr1 & E1) & (r2 & Hr2 & E2) & _).
  apply rows_of_hd_id in Hr1, Hr2. split; congruence.
Qed.

(** A row of the result names its two tracks, both of which have a
    polyline; its geometry is the intersection computed for them, of
    the configured shape; the thresholds hold; and its fields are read
    off the attributed samples of the two tracks. *)
Lemma emitted_row_facts cfg g1 g2 a g :
  emitted_by cfg g1 g2 (a, g) ->
  exists m line1 line2,
    g = Some m /\
    In (l1p_1 a, Some line1) (lin g1) /\
    In (l1p_2 a, Some line2) (lin g2) /\
    _identify_intersection cfg line1 line2 = Some m /\
    synthesized cfg m (rows_of (pts g1) (l1p_1 a))
                (rows_of (pts g2) (l1p_2 a)) a /\
    ((geom_type m = Point /\ matchtype cfg = "xo"%string /\
      1 <= length (attributed cfg m (rows_of (pts g1) (l1p_1 a))) /\
      1 <= length (attributed cfg m (rows_of (pts g2) (l1p_2 a))))
     \/
     (geom_type m = LineString /\ matchtype cfg = "otm"%string /\
      51 <= length (attributed cfg m (rows_of (pts g1) (l1p_1 a))) /\
      51 <= length (attributed cfg m (rows_of (pts g2) (l1p_2 a))))).
Proof.
  intros (k1 & line1 & k2 & line2 & m & H1 & H2 & Hm & Hg & Hsyn).
  simpl in Hg, Hsyn. exists m, line1, line2.
  destruct Hsyn as [(Ht & Hc & Hs)|(Ht & Hc & Hs)];
    [apply identify_XOs_inv in Hs | apply identify_OTMs_inv in Hs];
    destruct Hs as (Hn1 & Hn2 & Hs);
    destruct (synthesized_ids _ _ _ _ _ _ _ Hs) as [E1 E2];
    rewrite E1, E2;
    (do 5 (split; [assumption|])); [left | right]; auto.
Qed.

Lemma identify_row_facts cfg g1 g2 s s' out a g :
  _identify cfg g1 g2 s = (s', Ok out) ->
  In (a, g) (rows out) ->
  emitted_by cfg g1 g2 (a, g).
Proof.
  intros H Hin. apply identify_rows_emitted in H.
  rewrite Forall_forall in H. now apply H.
Qed.

(** A geometry with an attributed sample is not empty. *)
Lemma attributed_nonempty cfg m p :
  1 <= length (attributed cfg m p) -> is_empty m = false.
Proof.
  intros H. destruct (attributed cfg m p) as [|r q] eqn:E; simpl in H; [lia|].
  assert (Hin : In r (attributed cfg m p)) by (rewrite E; now left).
  apply filter_In in Hin. destruct Hin as [_ Hr]. unfold in_match in Hr.
  destruct (is_empty m) eqn:Em; [|reflexivity].
  rewrite intersects_empty in Hr by (now apply buffer_empty).
  discriminate.
Qed.

(** ** Below the thresholds, and outside the dispatch *)

Lemma identify_XOs_below cfg m p1 p2 :
  length (attributed cfg m p1) < 1 \/ length (attributed cfg m p2) < 1 ->
  _identify_XOs cfg m p1 p2 = Ok None.
Proof.
  intros H. unfold _identify_XOs. cbv zeta.
  rewrite !points_in_match_length.
  destruct (0 <? length (attributed cfg m p1)) eqn:E1;
    destruct (0 <? length (attributed cfg m p2)) eqn:E2;
    try reflexivity.
  apply Nat.ltb_lt in E1, E2. lia.
Qed.

Lemma identify_OTMs_below cfg m p1 p2 :
  length (attributed cfg m p1) <= 50 \/ length (attributed cfg m p2) <= 50 ->
  _identify_OTMs cfg m p1 p2 = Ok None.
Proof.
  intros H. unfold _identify_OTMs. cbv zeta.
  rewrite !points_in_match_length.
  destruct (50 <? length (attributed cfg m p1)) eqn:E1;
    destruct (50 <? length (attributed cfg m p2)) eqn:E2;
    try reflexivity.
  apply Nat.ltb_lt in E1, E2. lia.
Qed.

Lemma logger_eq l msg (s : trace) : logger l msg s = (s ++ [Log l msg], Ok tt).
Proof. reflexivity. Qed.

(** A pair whose intersection result is not of the configured shape is
    logged as unsupported and adds nothing. *)
Lemma identify_pair_mismatch cfg P1 P2 xo_id1 line1 idx2 xo_id2 line2 acc s :
  shape_matches cfg (_identify_intersection cfg line1 line2) = false ->
  identify_pair cfg P1 P2 xo_id1 (Some line1) (idx2, (xo_id2, Some line2)) acc s
  = (s ++ [Log WARNING
             (msg_unsupported (type_ (_identify_intersection cfg line1 line2)))],
     Ok acc).
Proof.
  intros H. unfold identify_pair. destruct acc as [attributes geometries].
  cbv zeta.
  destruct (_identify_intersection cfg line1 line2) as [m|]; simpl in H.
  - unfold dispatched in H. apply orb_false_iff in H. destruct H as [Hx Ho].
    rewrite Hx, Ho. reflexivity.
  - reflexivity.
Qed.

(** A pair missing a polyline is skipped before anything is computed. *)
Lemma identify_pair_skip cfg P1 P2 xo_id1 lin1 idx2 xo_id2 lin2 acc s :
  lin1 = None \/ lin2 = None ->
  identify_pair cfg P1 P2 xo_id1 lin1 (idx2, (xo_id2, lin2)) acc s = (s, Ok acc).
Proof.
  intros H. unfold identify_pair. destruct acc as [attributes geometries].
  destruct lin1, lin2; try reflexivity. destruct H; discriminate.
Qed.

(** A pair handed to a synthesizer that returns [None] adds nothing and
    logs nothing. *)
Lemma identify_pair_below cfg P1 P2 xo_id1 line1 idx2 xo_id2 line2 m acc s :
  _identify_intersection cfg line1 line2 = Some m ->
  (matchtype cfg = "xo"%string ->
   length (attributed cfg m (rows_of P1 xo_id1)) < 1 \/
   length (attributed cfg m (rows_of P2 xo_id2)) < 1) ->
  (matchtype cfg = "otm"%string ->
   length (attributed cfg m (rows_of P1 xo_id1)) <= 50 \/
   length (attributed cfg m (rows_of P2 xo_id2)) <= 50) ->
  exists s',
    identify_pair cfg P1 P2 xo_id1 (Some line1) (idx2, (xo_id2, Some line2)) acc s
    = (s', Ok acc).
Proof.
  intros Hm Hx Ho.
  destruct (shape_matches cfg (Some m)) eqn:Hs.
  - unfold identify_pair. destruct acc as [attributes geometries].
    cbv zeta. rewrite Hm. simpl in Hs. unfold dispatched in Hs.
    destruct (is_Point m && (matchtype cfg =? "xo")%string) eqn:Ex.
    + apply andb_true_iff in Ex. destruct Ex as [_ Ex].
      apply String.eqb_eq in Ex.
      rewrite identify_XOs_below by auto. eexists. reflexivity.
    + simpl in Hs. rewrite Hs.
      apply andb_true_iff in Hs. destruct Hs as [_ Eo].
      apply String.eqb_eq in Eo.
      rewrite identify_OTMs_below by auto. eexists. reflexivity.
  - rewrite <- Hm in Hs. eexists. apply identify_pair_mismatch. exact Hs.
Qed.

(** ** Claims about the rows of the result *)

(** C1. Every row of the frame returned by [_identify] carries the
    intersection computed for the polylines of the two tracks it names;
    that geometry is not empty, is a [Point] when the match type is
    ['xo'] and a [LineString] when it is ['otm']. A pair of polylines
    whose intersection result is not of the configured shape only adds
    an 'Unsupported intersect type' warning to the log: the
    accumulators are returned as they were. *)
Theorem match_geometry_has_configured_shape cfg g1 g2 s s' out :
  _identify cfg g1 g2 s = (s', Ok out) ->
  (forall a g, In (a, g) (rows out) ->
     exists m line1 line2,
       g = Some m /\
       In (l1p_1 a, Some line1) (lin g1) /\
       In (l1p_2 a, Some line2) (lin g2) /\
       _identify_intersection cfg line1 line2 = Some m /\
       is_empty m = false /\
       shape_matches cfg g = true /\
       (matchtype cfg = "xo"%string -> geom_type m = Point) /\
       (matchtype cfg = "otm"%string -> geom_type m = LineString))
  /\
  (forall P1 P2 xo_id1 line1 idx2 xo_id2 line2 acc t,
     shape_matches cfg (_identify_intersection cfg line1 line2) = false ->
     identify_pair cfg P1 P2 xo_id1 (Some line1) (idx2, (xo_id2, Some line2))
                   acc t
     = (t ++ [Log WARNING
                (msg_unsupported
                   (type_ (_identify_intersection cfg line1 line2)))],
        Ok acc)).
Proof.
  intros H. split.
  - intros a g Hin.
    pose proof (identify_row_facts _ _ _ _ _ _ _ _ H Hin) as Hrow.
    apply emitted_row_facts in Hrow.
    destruct Hrow as (m & line1 & line2 & -> & H1 & H2 & Hm & _ & Hcase).
    exists m, line1, line2. do 4 (split; [auto|]).
    destruct Hcase as [(Ht & Hc & Hn & _)|(Ht & Hc & Hn & _)].
    + split; [eapply attributed_nonempty; exact Hn|].
      split; [|split; [auto | rewrite Hc; discriminate]].
      simpl. unfold dispatched.
      apply is_Point_true in Ht. rewrite Ht, Hc. reflexivity.
    + split; [apply (attributed_nonempty cfg m (rows_of (pts g1) (l1p_1 a))); lia|].
      split; [|split; [rewrite Hc; discriminate | auto]].
      simpl. unfold dispatched.
      apply is_LineString_true in Ht. rewrite Ht, Hc.
      apply orb_true_r.
  - intros. now apply identify_pair_mismatch.
Qed.

(** C2. For every row of the result, the attributed samples of both of
    its tracks number at least 1 under ['xo'] and at least 51 under
    ['otm']. A pair whose intersection was computed and for which a
    side is below the threshold of the configured match type returns
    the accumulators unchanged, without raising. *)
Theorem match_meets_sample_threshold cfg g1 g2 s s' out :
  _identify cfg g1 g2 s = (s', Ok out) ->
  (forall a m, In (a, Some m) (rows out) ->
     (matchtype cfg = "xo"%string ->
      1 <= length (attributed cfg m (track1 g1 a)) /\
      1 <= length (attributed cfg m (track2 g2 a))) /\
     (matchtype cfg = "otm"%string ->
      51 <= length (attributed cfg m (track1 g1 a)) /\
      51 <= length (attributed cfg m (track2 g2 a))))
  /\
  (forall xo_id1 line1 idx2 xo_id2 line2 m acc t,
     _identify_intersection cfg line1 line2 = Some m ->
     (matchtype cfg = "xo"%string ->
      length (attributed cfg m (rows_of (pts g1) xo_id1)) < 1 \/
      length (attributed cfg m (rows_of (pts g2) xo_id2)) < 1) ->
     (matchtype cfg = "otm"%string ->
      length (attributed cfg m (rows_of (pts g1) xo_id1)) < 51 \/
      length (attributed cfg m (rows_of (pts g2) xo_id2)) < 51) ->
     exists t',
       identify_pair cfg (pts g1) (pts g2) xo_id1 (Some line1)
                     (idx2, (xo_id2, Some line2)) acc t
       = (t', Ok acc)).
Proof.
  intros H. split.
  - intros a m Hin.
    pose proof (identify_row_facts _ _ _ _ _ _ _ _ H Hin) as Hrow.
    apply emitted_row_facts in Hrow.
    destruct Hrow as (m' & line1 & line2 & E & _ & _ & _ & _ & Hcase).
    inversion E; subst m'. unfold track1, track2.
    destruct Hcase as [(_ & Hc & Hn1 & Hn2)|(_ & Hc & Hn1 & Hn2)];
      split; intros Hc'; try (split; assumption);
      rewrite Hc in Hc'; discriminate.
  - intros xo_id1 line1 idx2 xo_id2 line2 m acc t Hm Hx Ho.
    apply identify_pair_below with (m := m); [assumption | assumption |].
    intros Hc. specialize (Ho Hc). lia.
Qed.

(** C3. For every row of the result, [match_dt] is what
    [np.round(., 3)] makes of the absolute difference, in hours, between
    the instants of the two midpoint samples: on each side the sample
    at position [n / 2] (integer division) of the attributed samples,
    [n] their number, its timestamp converted by [fromtimestamp]. All
    of this is binary64 arithmetic, so the statement carries the
    rounding of each step: an instant is within half a microsecond of
    its timestamp up to [2^-32]; the value is non-negative and differs
    from the exact absolute difference in hours by at most half a
    thousandth plus [2^-49] of that difference and of one. *)
Theorem time_delta_is_midpoint_difference cfg g1 g2 s s' out :
  _identify cfg g1 g2 s = (s', Ok out) ->
  forall a m, In (a, Some m) (rows out) ->
    exists r1 r2 us1 us2,
      nth_error (attributed cfg m (track1 g1 a))
                (length (attributed cfg m (track1 g1 a)) / 2) = Some r1 /\
      nth_error (attributed cfg m (track2 g2 a))
                (length (attributed cfg m (track2 g2 a)) / 2) = Some r2 /\
      fromtimestamp (time r1) = Ok us1 /\
      fromtimestamp (time r2) = Ok us2 /\
      (Qabs (inject_Z us1 - time r1 * 1000000)
       <= (1 # 2) + (1 # 4294967296))%Q /\
      (Qabs (inject_Z us2 - time r2 * 1000000)
       <= (1 # 2) + (1 # 4294967296))%Q /\
      match_dt a = np.round3 (hours_between us1 us2) /\
      (0 <= match_dt a)%Q /\
      (Qabs (match_dt a - hours_apart us1 us2)
       <= (1 # 2000) + (hours_apart us1 us2 + 1) * (1 # 562949953421312))%Q.
Proof.
  intros H a m Hin.
  pose proof (identify_row_facts _ _ _ _ _ _ _ _ H Hin) as Hrow.
  apply emitted_row_facts in Hrow.
  destruct Hrow as (m' & line1 & line2 & E & _ & _ & _ & Hsyn & _).
  inversion E; subst m'.
  destruct Hsyn as (_ & _ & _ & _ & _ & _ & r1 & r2 & us1 & us2 & Hsyn).
  destruct Hsyn as (Hr1 & Hr2 & Hu1 & Hu2 & Hdt).
  exists r1, r2, us1, us2. unfold track1, track2.
  do 4 (split; [assumption|]).
  split; [now apply fromtimestamp_close|].
  split; [now apply fromtimestamp_close|].
  split; [assumption|]. rewrite Hdt. split.
  - apply round3_nonneg, hours_between_nonneg.
  - apply offset_close.
Qed.

(** C4. For every row of the result, the index bounds of a side are the
    [fidx] of the first and of the last attributed sample of that
    side's track, the attributed samples being the track's samples that
    pass the attribution test, in the order the track has them: the
    attribution list holds their positions in ascending order, and
    selecting [fidx] by it gives their [fidx] values in that order. *)
Theorem index_bounds_follow_track_order cfg g1 g2 s s' out :
  _identify cfg g1 g2 s = (s', Ok out) ->
  forall a m, In (a, Some m) (rows out) ->
    (StronglySorted lt (_identify_points_in_match cfg m (track1 g1 a)) /\
     np.take (map fidx (track1 g1 a))
             (_identify_points_in_match cfg m (track1 g1 a))
     = Ok (map fidx (attributed cfg m (track1 g1 a))) /\
     hd_error (map fidx (attributed cfg m (track1 g1 a))) = Some (rng1_0 a) /\
     iloc_last (map fidx (attributed cfg m (track1 g1 a))) = Ok (rng1_1 a))
    /\
    (StronglySorted lt (_identify_points_in_match cfg m (track2 g2 a)) /\
     np.take (map fidx (track2 g2 a))
             (_identify_points_in_match cfg m (track2 g2 a))
     = Ok (map fidx (attributed cfg m (track2 g2 a))) /\
     hd_error (map fidx (attributed cfg m (track2 g2 a))) = Some (rng2_0 a) /\
     iloc_last (map fidx (attributed cfg m (track2 g2 a))) = Ok (rng2_1 a)).
Proof.
  intros H a m Hin.
  pose proof (identify_row_facts _ _ _ _ _ _ _ _ H Hin) as Hrow.
  apply emitted_row_facts in Hrow.
  destruct Hrow as (m' & line1 & line2 & E & _ & _ & _ & Hsyn & _).
  inversion E; subst m'.
  destruct Hsyn as (_ & _ & Ha0 & Ha1 & Hb0 & Hb1 & _).
  unfold track1, track2.
  split; (split; [rewrite points_in_match_where; apply where_from_sorted|]);
    (split; [apply take_attributed|]); split; assumption.
Qed.

(** ** Empty intersections *)

Lemma attributed_empty cfg m p : is_empty m = true -> attributed cfg m p = [].
Proof.
  intros H. unfold attributed. induction p as [|r p IH]; simpl; [reflexivity|].
  unfold in_match at 1.
  rewrite intersects_empty by (now apply buffer_empty). exact IH.
Qed.

(** C6, as amended. A pair whose intersection is empty adds no row and
    raises nothing: the accumulators are returned as they were. Nothing
    is logged when the empty result has the shape of the configured
    match type (it is handed to the synthesizer, which finds no
    attributed sample); otherwise the pair is logged with an
    'Unsupported intersect type' warning. *)
Theorem empty_intersection_adds_nothing
    cfg P1 P2 xo_id1 line1 idx2 xo_id2 line2 m acc t :
  _identify_intersection cfg line1 line2 = Some m ->
  is_empty m = true ->
  identify_pair cfg P1 P2 xo_id1 (Some line1) (idx2, (xo_id2, Some line2)) acc t
  = (t ++ (if dispatched cfg m then []
           else [Log WARNING (msg_unsupported (shapely (geom_type m)))]),
     Ok acc).
Proof.
  intros Hm He.
  destruct (dispatched cfg m) eqn:Hd.
  - rewrite app_nil_r.
    unfold identify_pair. destruct acc as [attributes geometries].
    cbv zeta. rewrite Hm. unfold dispatched in Hd.
    destruct (is_Point m && (matchtype cfg =? "xo")%string).
    + rewrite identify_XOs_below; [reflexivity|].
      left. rewrite attributed_empty by assumption. simpl. lia.
    + simpl in Hd. rewrite Hd.
      rewrite identify_OTMs_below; [reflexivity|].
      left. rewrite attributed_empty by assumption. simpl. lia.
  - rewrite identify_pair_mismatch by (rewrite Hm; exact Hd).
    rewrite Hm. reflexivity.
Qed.

(** ** The diagnostic selection in [_identify_XOs] *)

(** C10. When both sides have an attributed sample and some attributed
    position of track B is not a position of track A's frame,
    [_identify_XOs] raises IndexError: line 282 selects from
    [geometry2], which line 281 took from [line1_points]. *)
Theorem identify_XOs_index_error cfg m p1 p2 :
  1 <= length (attributed cfg m p1) ->
  1 <= length (attributed cfg m p2) ->
  (exists i, In i (_identify_points_in_match cfg m p2) /\ length p1 <= i) ->
  _identify_XOs cfg m p1 p2 = Raise IndexError.
Proof.
  intros H1 H2 Hout. unfold _identify_XOs. cbv zeta.
  rewrite <- points_in_match_length in H1, H2.
  apply Nat.ltb_lt in H1, H2. rewrite H1, H2. cbn [andb].
  rewrite !take_attributed. cbn [rbind].
  rewrite take_out_of_range; [reflexivity|].
  rewrite length_map. exact Hout.
Qed.

(** ** [_compile_shp] *)

Lemma compile_shp_inv cfg files s s' g :
  _compile_shp cfg files s = (s', Ok g) ->
  exists t frames,
    for_each (enumerate files) (compile_file cfg (length files)) [] s
    = (t, Ok frames) /\
    pts g = map (pts_row_of cfg) (concat frames) /\
    lin g = map (lin_row (pts g)) (group_keys (map id (pts g))).
Proof.
  unfold _compile_shp. cbv zeta. intros H.
  step_py H. step_py H. step_py H.
  apply lift_ok in Hx1. destruct Hx1 as [_ Hc].
  unfold pd_concat in Hc. destruct x; [discriminate|]. inversion Hc; subst x1.
  do 6 step_py H. apply ret_ok in H. destruct H as [_ ->].
  exists s0, (l :: x). split; [exact Hx|]. split; reflexivity.
Qed.

Lemma polyline_needs_two_samples cfg files s s' g k line :
  _compile_shp cfg files s = (s', Ok g) ->
  In (k, Some line) (lin g) ->
  2 <= length (rows_of (pts g) k).
Proof.
  intros H Hin. apply compile_shp_inv in H.
  destruct H as (_ & _ & _ & _ & Hlin).
  rewrite Hlin in Hin. apply in_map_iff in Hin.
  destruct Hin as (k' & E & _). unfold lin_row in E.
  rewrite length_map in E.
  destruct (2 <=? length (rows_of (pts g) k')) eqn:E2; inversion E; subst.
  now apply Nat.leb_le.
Qed.

(** In the dictionary [_compile_shp] returns, a track with fewer than
    two rows has no polyline; a pair in which a polyline is missing is
    skipped, leaving accumulators and log untouched; and no row of the
    result of [_identify] names such a track. This counts the rows
    built for the track, which need not be its eligible samples. *)
Lemma track_of_one_row_has_no_polyline_and_no_match
    cfg files1 files2 s1 s1' s2 s2' s3 s3' g1 g2 out :
  _compile_shp cfg files1 s1 = (s1', Ok g1) ->
  _compile_shp cfg files2 s2 = (s2', Ok g2) ->
  _identify cfg g1 g2 s3 = (s3', Ok out) ->
  (forall k, length (rows_of (pts g1) k) < 2 ->
             forall line, ~ In (k, Some line) (lin g1)) /\
  (forall k, length (rows_of (pts g2) k) < 2 ->
             forall line, ~ In (k, Some line) (lin g2)) /\
  (forall xo_id1 lin1 idx2 xo_id2 lin2 acc t,
     lin1 = None \/ lin2 = None ->
     identify_pair cfg (pts g1) (pts g2) xo_id1 lin1 (idx2, (xo_id2, lin2)) acc t
     = (t, Ok acc)) /\
  (forall k, length (rows_of (pts g1) k) < 2 ->
             forall a g, In (a, g) (rows out) -> l1p_1 a <> k) /\
  (forall k, length (rows_of (pts g2) k) < 2 ->
             forall a g, In (a, g) (rows out) -> l1p_2 a <> k).
Proof.
  intros Hc1 Hc2 H.
  assert (L1 : forall k, length (rows_of (pts g1) k) < 2 ->
                         forall line, ~ In (k, Some line) (lin g1)).
  { intros k Hk line Hin.
    pose proof (polyline_needs_two_samples _ _ _ _ _ _ _ Hc1 Hin). lia. }
  assert (L2 : forall k, length (rows_of (pts g2) k) < 2 ->
                         forall line, ~ In (k, Some line) (lin g2)).
  { intros k Hk line Hin.
    pose proof (polyline_needs_two_samples _ _ _ _ _ _ _ Hc2 Hin). lia. }
  split; [exact L1|]. split; [exact L2|].
  split; [intros; now apply identify_pair_skip|].
  split; intros k Hk a g Hin E;
    pose proof (identify_row_facts _ _ _ _ _ _ _ _ H Hin) as Hrow;
    apply emitted_row_facts in Hrow;
    destruct Hrow as (m & line1 & line2 & _ & H1 & H2 & _);
    subst k; [eapply L1 | eapply L2]; eassumption.
Qed.

Lemma frame_rows_read_at f :
  forall K T La Lo,
    Forall2 (fun i x => nth_error (timestamp f) i = Some x) K T ->
    Forall2 (fun i x => nth_error (latitude f) i = Some x) K La ->
    Forall2 (fun i x => nth_error (longitude f) i = Some x) K Lo ->
    Forall (read_at f) (frame_rows (ncfile f) T La Lo K).
Proof.
  induction K as [|k K IH]; intros T La Lo HT HLa HLo;
    inversion HT; inversion HLa; inversion HLo; subst; simpl;
    constructor.
  - simpl. auto.
  - now apply IH.
Qed.

(** One file adds one frame, whose rows are read at their [fidx]. *)
Lemma compile_file_inv cfg n ncidx f frames s s' frames' :
  compile_file cfg n (ncidx, f) frames s = (s', Ok frames') ->
  exists df, frames' = frames ++ [df] /\ Forall (read_at f) df.
Proof.
  unfold compile_file. cbv zeta. intros H.
  do 4 step_py H. cbn [np.len Nat.ltb Nat.leb] in H.
  do 4 step_py H. apply ret_ok in H. destruct H as [_ ->].
  apply lift_ok in Hx3, Hx4, Hx5, Hx6.
  destruct Hx3 as [_ Ht], Hx4 as [_ Hla], Hx5 as [_ Hlo], Hx6 as [_ Hdf].
  exists x6. split; [reflexivity|].
  unfold DataFrame in Hdf.
  destruct ((length x3 =? length x4) && (length x4 =? length x5)
            && (length x5 =? length (np.item0 x2))); [|discriminate].
  inversion Hdf; subst x6.
  apply frame_rows_read_at; apply take_ok; assumption.
Qed.

(** Every row of ['pts'] built by [_compile_shp] comes from one of
    the files, bears its name, and holds the time, latitude and
    longitude found at position [fidx] of that file's full arrays:
    row and [fidx] agree, whatever positions were selected. *)
Lemma row_holds_file_data_at_fidx cfg files s s' g :
  _compile_shp cfg files s = (s', Ok g) ->
  forall r, In r (pts g) ->
    exists f, In f files /\
      id r = ncfile f /\
      nth_error (timestamp f) (fidx r) = Some (time r) /\
      nth_error (latitude f) (fidx r) = Some (lat r) /\
      nth_error (longitude f) (fidx r) = Some (lon r).
Proof.
  intros H r Hr. apply compile_shp_inv in H.
  destruct H as (t & frames & Hloop & Hpts & _).
  assert (Hinv : forall df, In df frames ->
                   forall row, In row df -> exists f, In f files /\ read_at f row).
  { eapply (for_each_invariant
              (fun frames => forall df, In df frames ->
                 forall row, In row df -> exists f, In f files /\ read_at f row));
      [ | | exact Hloop].
    - intros [ncidx f] a u u' a' Hin Ha Hbody.
      apply compile_file_inv in Hbody. destruct Hbody as (df & -> & Hdf).
      intros df' Hdf' row Hrow. apply in_app_or in Hdf'.
      destruct Hdf' as [Hold|[<-|[]]]; [eauto|].
      exists f. split; [eapply in_enumerate; exact Hin|].
      rewrite Forall_forall in Hdf. now apply Hdf.
    - intros df []. }
  rewrite Hpts in Hr. apply in_map_iff in Hr. destruct Hr as (row & <- & Hrow).
  apply in_concat in Hrow. destruct Hrow as (df & Hdf & Hrow).
  destruct (Hinv df Hdf row Hrow) as (f & Hf & Hread).
  exists f. split; [exact Hf|].
  destruct row as [[[[name t0] la] lo] k]. simpl in *. exact Hread.
Qed.

(** ** Failures *)

Lemma aoi_index_unknown cfg f (s : trace) :
  aoi cfg <> "arc"%string -> aoi cfg <> "ant"%string ->
  aoi_index cfg f s = (s, Raise AttributeError).
Proof.
  intros Harc Hant. unfold aoi_index.
  apply String.eqb_neq in Harc, Hant. rewrite Harc, Hant. reflexivity.
Qed.

Lemma compile_shp_unknown_aoi cfg f files (s : trace) :
  aoi cfg <> "arc"%string -> aoi cfg <> "ant"%string ->
  _compile_shp cfg (f :: files) s
  = (s ++ [Log INFO (msg_processing_file (ncfile f) 1 (S (length files)))],
     Raise AttributeError).
Proof.
  intros Harc Hant. unfold _compile_shp. cbv zeta.
  apply bind_raise. unfold enumerate. simpl.
  apply bind_raise. unfold compile_file.
  rewrite (bind_eq _ _ _ _ _ (logger_eq _ _ _)).
  apply bind_raise. now apply aoi_index_unknown.
Qed.

(** C7. With an area of interest other than ['arc'] and ['ant'] and at
    least one file for the first carrier, [run] ends with an
    AttributeError raised while the message for [logger.critical] is
    being formatted: the only event of the run is the INFO line for the
    first file, and the uncaught exception gives exit status 1. *)
Theorem unknown_aoi_raises_before_logging
    cfg year month f files1 files2 (s : trace) :
  aoi cfg <> "arc"%string -> aoi cfg <> "ant"%string ->
  run cfg year month (f :: files1) files2 s
  = (s ++ [Log INFO (msg_processing_file (ncfile f) 1 (S (length files1)))],
     Raise AttributeError)
  /\ exit_status (snd (run cfg year month (f :: files1) files2 s)) = 1%Z.
Proof.
  intros Harc Hant.
  assert (E : run cfg year month (f :: files1) files2 s
              = (s ++ [Log INFO (msg_processing_file (ncfile f) 1
                                                     (S (length files1)))],
                 Raise AttributeError)).
  { unfold run. apply bind_raise. now apply compile_shp_unknown_aoi. }
  split; [exact E | rewrite E; reflexivity].
Qed.

Lemma identify_crs cfg g1 g2 s s' out :
  _identify cfg g1 g2 s = (s', Ok out) -> crs out = epsg cfg.
Proof.
  unfold _identify. cbv zeta. intros H.
  step_to_datetime H. step_to_datetime H. step_py H.
  destruct x as [attributes geometries]. step_py H.
  apply lift_ok in H. destruct H as [_ H]. unfold GeoDataFrame in H.
  destruct (length attributes =? length geometries); [|discriminate].
  inversion H. reflexivity.
Qed.

Lemma export_shp_empty cfg year month id_gdf (s : trace) :
  crs id_gdf = epsg cfg ->
  rows id_gdf = [] ->
  _export_shp cfg year month id_gdf s
  = (s ++ [Log CRITICAL msg_no_matches], Raise (SystemExit None)).
Proof.
  intros Hcrs Hrows. unfold _export_shp, set_crs.
  rewrite Hcrs, Z.eqb_refl. unfold bind at 1. unfold lift.
  rewrite Hrows. reflexivity.
Qed.

(** C5. A run whose matching stage returns a frame without rows logs
    'No matches found to export!' as critical and ends with
    [SystemExit(None)], the exception of [sys.exit()] without argument:
    the exit status is 0. *)
Theorem empty_result_exits_with_status_zero
    cfg year month files1 files2 (s s1 s2 s3 : trace) g1 g2 out :
  _compile_shp cfg files1 s = (s1, Ok g1) ->
  _compile_shp cfg files2 s1 = (s2, Ok g2) ->
  _identify cfg g1 g2 s2 = (s3, Ok out) ->
  rows out = [] ->
  run cfg year month files1 files2 s
  = (s3 ++ [Log CRITICAL msg_no_matches], Raise (SystemExit None))
  /\ exit_status (snd (run cfg year month files1 files2 s)) = 0%Z.
Proof.
  intros H1 H2 H3 Hrows.
  assert (E : run cfg year month files1 files2 s
              = (s3 ++ [Log CRITICAL msg_no_matches], Raise (SystemExit None))).
  { unfold run.
    rewrite (bind_eq _ _ _ _ _ H1), (bind_eq _ _ _ _ _ H2),
            (bind_eq _ _ _ _ _ H3).
    apply export_shp_empty; [eapply identify_crs; exact H3 | exact Hrows]. }
  split; [exact E | rewrite E; reflexivity].
Qed.

End Properties.

(** * Further properties of the pipeline *)

From Stdlib Require OrderedTypeEx.

(** ** Loops and selections that return *)


(** A loop whose body adds at most [c] to a measure of the accumulator
    adds at most [c] per element. *)
Lemma for_each_count {St A S} (size : S -> nat) (body : A -> S -> M St S) c :
  forall xs acc s s' acc',
    (forall x a t t' a', In x xs -> body x a t = (t', Ok a') ->
                         size a' <= size a + c) ->
    for_each xs body acc s = (s', Ok acc') ->
    size acc' <= size acc + length xs * c.
Proof.
  induction xs as [|x xs IH]; simpl; intros acc s s' acc' Hbody H.
  - apply ret_ok in H. destruct H as [_ ->]. lia.
  - step_py H.
    pose proof (Hbody x acc s s0 x0 (or_introl eq_refl) Hx) as H1.
    assert (H2 : size acc' <= size x0 + length xs * c).
    { eapply IH; [|exact H]. intros; eapply Hbody; eauto. }
    lia.
Qed.

Lemma take_returns {A} (a : list A) :
  forall idx, (forall i, In i idx -> i < length a) ->
              exists l, np.take a idx = Ok l /\ length l = length idx.
Proof.
  induction idx as [|i idx IH]; intros H; simpl.
  - exists []. auto.
  - destruct (nth_error a i) as [x|] eqn:E.
    + destruct IH as (l & El & Hl); [intros; apply H; now right|].
      exists (x :: l). unfold np.getitem. rewrite E. simpl. rewrite El.
      simpl. auto.
    + apply nth_error_None in E. specialize (H i (or_introl eq_refl)). lia.
Qed.

Lemma take_length {A} (a : list A) idx l :
  np.take a idx = Ok l -> length l = length idx.
Proof.
  intros H. apply take_ok in H. symmetry. eapply Forall2_length. exact H.
Qed.


Lemma where_from_In cond :
  forall k i, In i (np.where_from k cond) <->
              k <= i /\ nth_error cond (i - k) = Some true.
Proof.
  induction cond as [|b cond IH]; intros k i; simpl.
  - split; [tauto|]. intros [_ H]. destruct (i - k); discriminate.
  - assert (Hstep : forall j, S k <= j -> j - k = S (j - S k)) by (intros; lia).
    split.
    + intros H.
      assert (Hcase : i = k /\ b = true \/ In i (np.where_from (S k) cond)).
      { destruct b; simpl in H; [destruct H as [<-|H]|]; auto. }
      destruct Hcase as [[-> ->]|Hin].
      * rewrite Nat.sub_diag. auto.
      * apply IH in Hin. destruct Hin as [Hle Hn].
        split; [lia|]. rewrite Hstep by assumption. exact Hn.
    + intros [Hle Hn].
      destruct (Nat.eq_dec i k) as [->|Hne].
      * rewrite Nat.sub_diag in Hn. simpl in Hn. inversion Hn. now left.
      * rewrite Hstep in Hn by lia. simpl in Hn.
        assert (Hin : In i (np.where_from (S k) cond))
          by (apply IH; split; [lia | exact Hn]).
        destruct b; [now right | exact Hin].
Qed.

Lemma where_from_le cond :
  forall k, length (np.where_from k cond) <= length cond.
Proof.
  induction cond as [|b cond IH]; intros k; simpl; [lia|].
  destruct b; simpl; specialize (IH (S k)); lia.
Qed.

(** A timestamp [datetime.fromtimestamp] accepts. *)
Definition representable (t : Q) : Prop :=
  exists us, fromtimestamp t = Ok us.

Section FurtherProperties.

Context {geo : GeoStack}.

(** The id and the file position of a row of a per-file frame. *)
Definition row_id (row : preproc_row) : string :=
  let '(name, _, _, _, _) := row in name.

Definition row_fidx (row : preproc_row) : nat :=
  let '(_, _, _, _, k) := row in k.

(** What [compile_file] appends for a file: a frame of rows bearing the
    file's name, read from the file at strictly ascending positions,
    each below the number of positions [aoi_index] selects. *)
Definition frame_of (cfg : Configuration) (f : l1p_file)
    (df : list preproc_row) : Prop :=
  Forall (fun row => row_id row = ncfile f) df /\
  Forall (read_at f) df /\
  StronglySorted lt (map row_fidx df) /\
  exists (t t' : trace) aoi_idx,
    aoi_index cfg f t = (t', Ok aoi_idx) /\
    Forall (fun row => row_fidx row < length (np.item0 aoi_idx)) df.



(** The order of the group keys: code-point order on strings. *)
Definition key_lt (a b : string) : Prop := String.compare a b = Lt.

(** A match record with its two sides exchanged. *)
Definition swap_sides (a : ATTRS) : ATTRS :=
  {| l1p_1 := l1p_2 a; l1p_2 := l1p_1 a;
     rng1_0 := rng2_0 a; rng1_1 := rng2_1 a;
     rng2_0 := rng1_0 a; rng2_1 := rng1_1 a;
     match_dt := match_dt a |}.

(** ** The point attributor *)

Lemma points_in_match_In cfg MATCH line_points i :
  In i (_identify_points_in_match cfg MATCH line_points) <->
  exists r, nth_error line_points i = Some r /\ in_match cfg MATCH r = true.
Proof.
  rewrite points_in_match_where, where_from_In, Nat.sub_0_r.
  rewrite nth_error_map.
  split.
  - intros [_ H].
    destruct (nth_error line_points i) as [r|]; [|discriminate].
    exists r. split; [reflexivity|]. now inversion H.
  - intros (r & -> & Hr). split; [lia|]. simpl. now rewrite Hr.
Qed.

(** X1. [_identify_points_in_match] returns exactly the positions, in
    the frame of the track, of the samples whose point intersects the
    buffered match; every position it returns is a position of the
    frame. *)
Theorem points_in_match_characterized cfg MATCH line_points i :
  In i (_identify_points_in_match cfg MATCH line_points) <->
  exists r, nth_error line_points i = Some r /\ in_match cfg MATCH r = true.
Proof. apply points_in_match_In. Qed.

Lemma points_in_match_bound cfg MATCH line_points i :
  In i (_identify_points_in_match cfg MATCH line_points) ->
  i < length line_points.
Proof.
  intros H. apply points_in_match_In in H.
  destruct H as (r & Hr & _). apply nth_error_Some. congruence.
Qed.



(** ** When the synthesizers return *)

Lemma first_last_exist {A} (l : list A) :
  1 <= length l -> exists a b, np.getitem l 0 = Ok a /\ iloc_last l = Ok b.
Proof.
  destruct l as [|x l]; simpl; intros H; [lia|].
  exists x, (last l x). auto.
Qed.

Lemma attributed_incl cfg m p r :
  In r (attributed cfg m p) -> In r p.
Proof. intros H. apply filter_In in H. tauto. Qed.

Lemma track_first_id cfg m p :
  1 <= length (attributed cfg m p) ->
  exists r, np.getitem (map id p) 0 = Ok (id r).
Proof.
  intros H. destruct p as [|r p]; [simpl in H; lia|]. exists r. reflexivity.
Qed.

(** The midpoint of a non-empty attribution list leads to a sample of
    the track, whose timestamp converts when the track's timestamps
    do. *)
Lemma midpoint_exists cfg m p :
  1 <= length (attributed cfg m p) ->
  Forall (fun r => representable (time r)) p ->
  exists i r us,
    np.getitem (_identify_points_in_match cfg m p)
               (length (_identify_points_in_match cfg m p) / 2) = Ok i /\
    np.getitem (map time p) i = Ok (time r) /\
    fromtimestamp (time r) = Ok us.
Proof.
  intros Hn Hrep. rewrite <- points_in_match_length in Hn.
  set (l := _identify_points_in_match cfg m p) in *.
  assert (Hlt : length l / 2 < length l)
    by (apply Nat.div_lt; lia).
  destruct (nth_error l (length l / 2)) as [i|] eqn:Ei;
    [|apply nth_error_None in Ei; lia].
  assert (Hin : In i l) by (eapply nth_error_In; exact Ei).
  apply points_in_match_In in Hin.
  destruct Hin as (r & Hr & _).
  assert (Hrin : In r p) by (eapply nth_error_In; exact Hr).
  rewrite Forall_forall in Hrep. destruct (Hrep r Hrin) as (us & Hus).
  exists i, r, us. split; [now apply getitem_ok|].
  split; [|exact Hus].
  apply getitem_ok. rewrite nth_error_map, Hr. reflexivity.
Qed.

Ltac run_synthesis_tail cfg m p1 p2 H1 H2 Hr1 Hr2 :=
  let i1 := fresh "i1" in let r1 := fresh "r1" in let us1 := fresh "us1" in
  let i2 := fresh "i2" in let r2 := fresh "r2" in let us2 := fresh "us2" in
  let Ei1 := fresh in let Et1 := fresh in let Eu1 := fresh in
  let Ei2 := fresh in let Et2 := fresh in let Eu2 := fresh in
  let q1 := fresh "q1" in let q2 := fresh "q2" in
  let Eq1 := fresh in let Eq2 := fresh in
  let a1 := fresh in let b1 := fresh in let Ea1 := fresh in let Eb1 := fresh in
  let a2 := fresh in let b2 := fresh in let Ea2 := fresh in let Eb2 := fresh in
  destruct (midpoint_exists cfg m p1 H1 Hr1) as (i1 & r1 & us1 & Ei1 & Et1 & Eu1);
  destruct (midpoint_exists cfg m p2 H2 Hr2) as (i2 & r2 & us2 & Ei2 & Et2 & Eu2);
  destruct (track_first_id cfg m p1 H1) as (q1 & Eq1);
  destruct (track_first_id cfg m p2 H2) as (q2 & Eq2);
  destruct (first_last_exist (map fidx (attributed cfg m p1)))
    as (a1 & b1 & Ea1 & Eb1); [rewrite length_map; exact H1|];
  destruct (first_last_exist (map fidx (attributed cfg m p2)))
    as (a2 & b2 & Ea2 & Eb2); [rewrite length_map; exact H2|];
  rewrite Ei1; cbn [rbind]; rewrite Et1; cbn [rbind];
  rewrite Ei2; cbn [rbind]; rewrite Et2; cbn [rbind];
  rewrite Eu1; cbn [rbind]; rewrite Eu2; cbn [rbind];
  rewrite Eq1; cbn [rbind]; rewrite Eq2; cbn [rbind];
  rewrite Ea1; cbn [rbind]; rewrite Eb1; cbn [rbind];
  rewrite Ea2; cbn [rbind]; rewrite Eb2; cbn [rbind];
  eexists; reflexivity.

(** X2. [_identify_XOs] returns a record when both tracks have an
    attributed sample, every attributed position of track B is a
    position of track A's frame, and the timestamps of both tracks are
    accepted by [fromtimestamp]. *)
Theorem identify_XOs_returns cfg m p1 p2 :
  1 <= length (attributed cfg m p1) ->
  1 <= length (attributed cfg m p2) ->
  (forall i, In i (_identify_points_in_match cfg m p2) -> i < length p1) ->
  Forall (fun r => representable (time r)) p1 ->
  Forall (fun r => representable (time r)) p2 ->
  exists a, _identify_XOs cfg m p1 p2 = Ok (Some a).
Proof.
  intros H1 H2 Hpos Hr1 Hr2. unfold _identify_XOs. cbv zeta.
  pose proof H1 as G1. pose proof H2 as G2.
  rewrite <- points_in_match_length in G1, G2.
  apply Nat.ltb_lt in G1, G2. rewrite G1, G2. cbn [andb].
  rewrite !take_attributed. cbn [rbind].
  destruct (take_returns (map geometry p1) (_identify_points_in_match cfg m p2))
    as (gs & Egs & _); [rewrite length_map; exact Hpos|].
  rewrite Egs. cbn [rbind].
  run_synthesis_tail cfg m p1 p2 H1 H2 Hr1 Hr2.
Qed.



(** X3. [_identify_OTMs] treats its two tracks alike: called with the
    tracks exchanged it returns the same outcome with the two sides of
    the record exchanged and the same time offset. *)
Theorem identify_OTMs_symmetric cfg m p1 p2 res :
  _identify_OTMs cfg m p1 p2 = Ok res ->
  _identify_OTMs cfg m p2 p1 = Ok (option_map swap_sides res).
Proof.
  unfold _identify_OTMs. cbv zeta.
  rewrite (andb_comm (50 <? length (_identify_points_in_match cfg m p2))).
  destruct ((50 <? length (_identify_points_in_match cfg m p1))
            && (50 <? length (_identify_points_in_match cfg m p2)));
    [|intros H; inversion H; reflexivity].
  intros H. rewrite !take_attributed in H. cbn [rbind] in H.
  repeat step_result H. inversion H; subst; clear H.
  rewrite !take_attributed. cbn [rbind].
  repeat match goal with
         | E : ?e = Ok _ |- context [?e] => rewrite E; cbn [rbind]
         end.
  unfold swap_sides. simpl. do 3 f_equal.
  apply (f_equal np.round3). apply (hours_between_sym x4 x3).
Qed.


(** ** The frames [_compile_shp] builds *)

Lemma frame_rows_columns name :
  forall K T La Lo,
    length T = length K -> length La = length K -> length Lo = length K ->
    map row_fidx (frame_rows name T La Lo K) = K /\
    Forall (fun row => row_id row = name) (frame_rows name T La Lo K).
Proof.
  induction K as [|k K IH]; intros [|t T] [|la La] [|lo Lo] HT HLa HLo;
    simpl in *; try discriminate; [split; [reflexivity | constructor]|].
  destruct (IH T La Lo) as [E F]; [lia | lia | lia |].
  split; [rewrite E; reflexivity | constructor; [reflexivity | exact F]].
Qed.

Lemma compile_file_frame cfg n ncidx f frames s s' frames' :
  compile_file cfg n (ncidx, f) frames s = (s', Ok frames') ->
  exists df, frames' = frames ++ [df] /\ frame_of cfg f df.
Proof.
  intros H. pose proof H as H0. apply compile_file_inv in H0.
  destruct H0 as (df & -> & Hread). exists df. split; [reflexivity|].
  unfold compile_file in H. cbv zeta in H.
  do 4 step_py H. cbn [np.len Nat.ltb Nat.leb] in H.
  do 4 step_py H. apply ret_ok in H. destruct H as [_ H].
  apply app_inv_head in H. inversion H; subst x6. clear H.
  apply lift_ok in Hx1, Hx3, Hx4, Hx5, Hx6.
  destruct Hx1 as [_ Hsft], Hx3 as [_ Ht], Hx4 as [_ Hla], Hx5 as [_ Hlo],
           Hx6 as [_ Hdf].
  apply take_length in Hsft, Ht, Hla, Hlo.
  unfold DataFrame in Hdf.
  destruct ((length x3 =? length x4) && (length x4 =? length x5)
            && (length x5 =? length (np.item0 x2))); [|discriminate].
  inversion Hdf; subst df. clear Hdf.
  destruct (frame_rows_columns (ncfile f) (np.item0 x2) x3 x4 x5)
    as [Ecol Hid]; [exact Ht | exact Hla | exact Hlo |].
  assert (Hx2' : StronglySorted lt (np.item0 x2) /\
                 forall k, In k (np.item0 x2) -> k < length (np.item0 x0)).
  { destruct (dist_coast f) as [d2c|].
    - step_py Hx2. apply ret_ok in Hx2. destruct Hx2 as [_ ->].
      apply lift_ok in Hx1. destruct Hx1 as [_ Hd]. apply take_length in Hd.
      simpl. split; [apply where_from_sorted|].
      intros k Hk. apply where_from_bounds in Hk.
      unfold np.ge in Hk. rewrite length_map, Hd in Hk. simpl in Hk.
      pose proof (where_from_le (np.eq_int x1 1) 0) as Hle.
      unfold np.eq_int in Hle at 2. rewrite length_map, Hsft in Hle.
      unfold np.take_tuple in *. lia.
    - apply ret_ok in Hx2. destruct Hx2 as [_ ->].
      simpl. split; [apply where_from_sorted|].
      intros k Hk. apply where_from_bounds in Hk.
      unfold np.eq_int in Hk. rewrite length_map, Hsft in Hk. lia. }
  destruct Hx2' as [Hsorted Hbound].
  split; [exact Hid|]. split; [exact Hread|].
  split; [rewrite Ecol; exact Hsorted|].
  exists s0, s1, x0. split; [exact Hx0|].
  apply Forall_forall. intros row Hrow. apply Hbound.
  rewrite <- Ecol. apply in_map. exact Hrow.
Qed.

(** The loop over the files appends one frame per file, in file order. *)
Lemma compile_loop_frames cfg n :
  forall fs i acc s s' acc',
    for_each (combine (seq i (length fs)) fs) (compile_file cfg n) acc s
    = (s', Ok acc') ->
    exists dfs, acc' = acc ++ dfs /\ Forall2 (frame_of cfg) fs dfs.
Proof.
  induction fs as [|f fs IH]; simpl; intros i acc s s' acc' H.
  - apply ret_ok in H. destruct H as [_ ->]. exists [].
    rewrite app_nil_r. auto.
  - step_py H. apply compile_file_frame in Hx. destruct Hx as (df & -> & Hdf).
    apply IH in H. destruct H as (dfs & -> & Hdfs).
    exists (df :: dfs). rewrite <- app_assoc. simpl. auto.
Qed.

Lemma compile_shp_frames cfg files s s' g :
  _compile_shp cfg files s = (s', Ok g) ->
  exists frames,
    Forall2 (frame_of cfg) files frames /\
    pts g = map (pts_row_of cfg) (concat frames) /\
    lin g = map (lin_row (pts g)) (group_keys (map id (pts g))).
Proof.
  intros H. apply compile_shp_inv in H.
  destruct H as (t & frames & Hloop & Hpts & Hlin).
  apply compile_loop_frames in Hloop. destruct Hloop as (dfs & -> & Hdfs).
  exists dfs. auto.
Qed.

Lemma pts_row_of_fields cfg row :
  id (pts_row_of cfg row) = row_id row /\
  fidx (pts_row_of cfg row) = row_fidx row.
Proof. destruct row as [[[[name t] la] lo] k]. auto. Qed.

Lemma Forall2_in_r {A B} (R : A -> B -> Prop) xs ys y :
  Forall2 R xs ys -> In y ys -> exists x, In x xs /\ R x y.
Proof.
  induction 1 as [|x y' xs ys HR _ IH]; simpl; [tauto|].
  intros [<-|Hin]; [eauto|]. destruct (IH Hin) as (x' & Hx' & HR'). eauto.
Qed.

(** X4. The [fidx] of every row of ['pts'] is a position within the
    subset of its file selected by the area of interest: it is below
    the number of positions the AOI test selects, which for ['ant'] is
    the number of samples with latitude at most -55. *)
Theorem fidx_below_aoi_count cfg files s s' g :
  _compile_shp cfg files s = (s', Ok g) ->
  forall r, In r (pts g) ->
    exists f (t t' : trace) aoi_idx,
      In f files /\ id r = ncfile f /\
      aoi_index cfg f t = (t', Ok aoi_idx) /\
      fidx r < length (np.item0 aoi_idx) /\
      (aoi cfg = "ant"%string ->
       fidx r < length (filter (fun la => Qle_bool la (-55)) (latitude f))).
Proof.
  intros H r Hr. apply compile_shp_frames in H.
  destruct H as (frames & Hframes & Hpts & _).
  rewrite Hpts in Hr. apply in_map_iff in Hr. destruct Hr as (row & <- & Hrow).
  apply in_concat in Hrow. destruct Hrow as (df & Hdf & Hrow).
  destruct (Forall2_in_r _ _ _ _ Hframes Hdf) as (f & Hf & Hid & _ & _ & Haoi).
  destruct Haoi as (t & t' & aoi_idx & Haoi & Hbound).
  rewrite Forall_forall in Hid, Hbound.
  destruct (pts_row_of_fields cfg row) as [-> ->].
  exists f, t, t', aoi_idx.
  split; [exact Hf|]. split; [now apply Hid|]. split; [exact Haoi|].
  split; [now apply Hbound|].
  intros Hant. specialize (Hbound row Hrow).
  unfold aoi_index in Haoi. rewrite Hant in Haoi. simpl in Haoi.
  apply ret_ok in Haoi. destruct Haoi as [_ ->]. simpl in Hbound.
  unfold np.le in Hbound. rewrite where_from_length in Hbound. exact Hbound.
Qed.


(** ** Positions along a track *)

Lemma rows_of_app P Q k : rows_of (P ++ Q) k = rows_of P k ++ rows_of Q k.
Proof. unfold rows_of. apply filter_app. Qed.

Lemma rows_of_frame_same cfg f df :
  Forall (fun row => row_id row = ncfile f) df ->
  rows_of (map (pts_row_of cfg) df) (ncfile f) = map (pts_row_of cfg) df.
Proof.
  unfold rows_of.
  induction 1 as [|row df Hrow _ IH]; simpl; [reflexivity|].
  destruct (pts_row_of_fields cfg row) as [-> _].
  rewrite Hrow, String.eqb_refl. f_equal. exact IH.
Qed.

Lemma rows_of_frame_other cfg f df k :
  ncfile f <> k ->
  Forall (fun row => row_id row = ncfile f) df ->
  rows_of (map (pts_row_of cfg) df) k = [].
Proof.
  intros Hne. unfold rows_of.
  induction 1 as [|row df Hrow _ IH]; simpl; [reflexivity|].
  destruct (pts_row_of_fields cfg row) as [-> _].
  rewrite Hrow. apply String.eqb_neq in Hne. rewrite Hne. exact IH.
Qed.

Lemma rows_of_frames_absent cfg fs dfs k :
  Forall2 (frame_of cfg) fs dfs ->
  ~ In k (map ncfile fs) ->
  rows_of (map (pts_row_of cfg) (concat dfs)) k = [].
Proof.
  induction 1 as [|f df fs dfs Hf _ IH]; simpl; intros Hk; [reflexivity|].
  rewrite map_app, rows_of_app, IH by tauto.
  rewrite (rows_of_frame_other cfg f df k); [reflexivity | tauto | apply Hf].
Qed.

(** With distinct file names, the rows of a track are the frame of one
    file, or none. *)
Lemma rows_of_frames cfg fs dfs k :
  Forall2 (frame_of cfg) fs dfs ->
  NoDup (map ncfile fs) ->
  rows_of (map (pts_row_of cfg) (concat dfs)) k = [] \/
  exists f df, In f fs /\ ncfile f = k /\ frame_of cfg f df /\
               rows_of (map (pts_row_of cfg) (concat dfs)) k
               = map (pts_row_of cfg) df.
Proof.
  induction 1 as [|f df fs dfs Hf Hrest IH]; simpl; intros Hnd; [now left|].
  inversion Hnd as [|? ? Hnotin Hnd']; subst.
  rewrite map_app, rows_of_app.
  destruct (string_dec (ncfile f) k) as [<-|Hne].
  - right. exists f, df.
    rewrite (rows_of_frames_absent cfg fs dfs (ncfile f) Hrest Hnotin).
    rewrite app_nil_r, rows_of_frame_same by apply Hf. auto.
  - rewrite (rows_of_frame_other cfg f df k Hne) by apply Hf. simpl.
    destruct (IH Hnd') as [E|(f' & df' & Hin & Hk & Hf' & E)]; [now left|].
    right. exists f', df'. auto.
Qed.

Lemma map_fidx_frame cfg df :
  map fidx (map (pts_row_of cfg) df) = map row_fidx df.
Proof.
  rewrite map_map. apply map_ext. intros row.
  apply (pts_row_of_fields cfg row).
Qed.

Lemma sorted_track cfg files s s' g k :
  _compile_shp cfg files s = (s', Ok g) ->
  NoDup (map ncfile files) ->
  StronglySorted lt (map fidx (rows_of (pts g) k)).
Proof.
  intros H Hnd. apply compile_shp_frames in H.
  destruct H as (frames & Hframes & -> & _).
  destruct (rows_of_frames cfg files frames k Hframes Hnd)
    as [->|(f & df & _ & _ & Hf & ->)]; [constructor|].
  rewrite map_fidx_frame. apply Hf.
Qed.

(** X5. When the files of a carrier have distinct names, the [fidx]
    values along each track of the dictionary [_compile_shp] returns
    are strictly increasing. *)
Theorem track_positions_ascending cfg files s s' g :
  _compile_shp cfg files s = (s', Ok g) ->
  NoDup (map ncfile files) ->
  forall k, StronglySorted lt (map fidx (rows_of (pts g) k)).
Proof. intros H Hnd k. eapply sorted_track; eassumption. Qed.

Lemma sorted_filter_map {A} (f : A -> nat) (p : A -> bool) l :
  StronglySorted lt (map f l) -> StronglySorted lt (map f (filter p l)).
Proof.
  induction l as [|x l IH]; simpl; intros H; [constructor|].
  inversion H as [|? ? Hs Hall]; subst.
  destruct (p x); [|now apply IH].
  simpl. constructor; [now apply IH|].
  rewrite Forall_forall in *. intros y Hy. apply Hall.
  apply in_map_iff in Hy. destruct Hy as (z & <- & Hz).
  apply in_map. apply filter_In in Hz. tauto.
Qed.

Lemma last_cons_default {A} (l : list A) (c a : A) :
  last (c :: l) a = last l c.
Proof.
  revert c a. induction l as [|d l IH]; intros c a; [reflexivity|].
  change (last (c :: d :: l) a) with (last (d :: l) a).
  rewrite (IH d a), (IH d c). reflexivity.
Qed.

Lemma sorted_last_is_max :
  forall l a, StronglySorted lt (a :: l) ->
              forall x, In x (a :: l) -> a <= x <= last l a.
Proof.
  induction l as [|c l IH]; intros a Hs x Hx.
  - destruct Hx as [<-|[]]. simpl. lia.
  - inversion Hs as [|? ? Hs' Hall]; subst.
    assert (Hac : a < c) by (inversion Hall; assumption).
    rewrite last_cons_default.
    destruct Hx as [<-|Hx].
    + pose proof (IH c Hs' c (or_introl eq_refl)). lia.
    + pose proof (IH c Hs' x Hx). lia.
Qed.

Lemma hd_error_In {A} (l : list A) a : hd_error l = Some a -> In a l.
Proof. destruct l; simpl; intros H; inversion H. now left. Qed.

Lemma sorted_bounds l a b :
  StronglySorted lt l -> hd_error l = Some a -> iloc_last l = Ok b ->
  forall x, In x l -> a <= x <= b.
Proof.
  destruct l as [|a' l]; simpl; intros Hs Ha Hb; [discriminate|].
  inversion Ha; inversion Hb; subst. now apply sorted_last_is_max.
Qed.

(** X6. For tracks built by [_compile_shp] from files with distinct
    names, the index bounds of every match row are a range: on each
    side the first bound is at most the last, and the [fidx] of every
    attributed sample lies between them. *)
Theorem index_bounds_enclose_attributed
    cfg files1 files2 s1 s1' s2 s2' s3 s3' g1 g2 out :
  _compile_shp cfg files1 s1 = (s1', Ok g1) ->
  _compile_shp cfg files2 s2 = (s2', Ok g2) ->
  NoDup (map ncfile files1) ->
  NoDup (map ncfile files2) ->
  _identify cfg g1 g2 s3 = (s3', Ok out) ->
  forall a m, In (a, Some m) (rows out) ->
    rng1_0 a <= rng1_1 a /\
    rng2_0 a <= rng2_1 a /\
    (forall r, In r (attributed cfg m (track1 g1 a)) ->
               rng1_0 a <= fidx r <= rng1_1 a) /\
    (forall r, In r (attributed cfg m (track2 g2 a)) ->
               rng2_0 a <= fidx r <= rng2_1 a).
Proof.
  intros Hc1 Hc2 Hnd1 Hnd2 H a m Hin.
  pose proof (identify_row_facts _ _ _ _ _ _ _ _ H Hin) as Hrow.
  apply emitted_row_facts in Hrow.
  destruct Hrow as (m' & line1 & line2 & E & _ & _ & _ & Hsyn & _).
  inversion E; subst m'.
  destruct Hsyn as (_ & _ & Ha0 & Ha1 & Hb0 & Hb1 & _).
  assert (S1 : StronglySorted lt (map fidx (attributed cfg m (rows_of (pts g1) (l1p_1 a)))))
    by (apply sorted_filter_map, (sorted_track cfg files1 s1 s1' g1 _ Hc1 Hnd1)).
  assert (S2 : StronglySorted lt (map fidx (attributed cfg m (rows_of (pts g2) (l1p_2 a)))))
    by (apply sorted_filter_map, (sorted_track cfg files2 s2 s2' g2 _ Hc2 Hnd2)).
  pose proof (sorted_bounds _ _ _ S1 Ha0 Ha1) as B1.
  pose proof (sorted_bounds _ _ _ S2 Hb0 Hb1) as B2.
  pose proof (hd_error_In _ _ Ha0) as F1.
  pose proof (hd_error_In _ _ Hb0) as F2.
  split; [apply B1 in F1; lia|]. split; [apply B2 in F2; lia|].
  split; intros r Hr; [apply B1 | apply B2]; apply in_map; exact Hr.
Qed.


(** ** The keys of a [groupby] *)

Lemma key_lt_trans a b c : key_lt a b -> key_lt b c -> key_lt a c.
Proof.
  unfold key_lt. intros H1 H2.
  apply OrderedTypeEx.String_as_OT.cmp_lt.
  apply OrderedTypeEx.String_as_OT.cmp_lt in H1, H2.
  eapply OrderedTypeEx.String_as_OT.lt_trans; eassumption.
Qed.

Lemma key_lt_irrefl a : ~ key_lt a a.
Proof.
  unfold key_lt. intros H.
  apply OrderedTypeEx.String_as_OT.cmp_lt in H.
  apply OrderedTypeEx.String_as_OT.lt_not_eq in H.
  apply H. reflexivity.
Qed.

Lemma key_gt_lt a b : String.compare a b = Gt -> key_lt b a.
Proof.
  unfold key_lt. intros H. rewrite String.compare_antisym, H. reflexivity.
Qed.

Lemma insert_key_In k ks x :
  In x (insert_key k ks) <-> x = k \/ In x ks.
Proof.
  induction ks as [|k' ks IH]; simpl; [intuition|].
  destruct (String.compare k k') eqn:E; simpl.
  - apply String.compare_eq_iff in E. subst. intuition.
  - intuition.
  - rewrite IH. intuition.
Qed.

Lemma insert_key_sorted k ks :
  StronglySorted key_lt ks -> StronglySorted key_lt (insert_key k ks).
Proof.
  induction 1 as [|k' ks Hs IH Hall]; simpl; [repeat constructor|].
  destruct (String.compare k k') eqn:E.
  - now constructor.
  - constructor; [now constructor|].
    constructor; [exact E|].
    rewrite Forall_forall in *. intros x Hx.
    eapply key_lt_trans; [exact E | now apply Hall].
  - constructor; [exact IH|].
    rewrite Forall_forall in *. intros x Hx.
    apply insert_key_In in Hx. destruct Hx as [->|Hx];
      [now apply key_gt_lt | now apply Hall].
Qed.

Lemma group_keys_spec ids :
  StronglySorted key_lt (group_keys ids) /\
  forall x, In x (group_keys ids) <-> In x ids.
Proof.
  unfold group_keys.
  assert (G : forall acc,
             StronglySorted key_lt acc ->
             StronglySorted key_lt (fold_left (fun ks k => insert_key k ks) ids acc) /\
             forall x, In x (fold_left (fun ks k => insert_key k ks) ids acc)
                       <-> In x ids \/ In x acc).
  { induction ids as [|k ids IH]; simpl; intros acc Hacc.
    - split; [exact Hacc | intuition].
    - destruct (IH (insert_key k acc) (insert_key_sorted k acc Hacc)) as [S I].
      split; [exact S|]. intros x. rewrite I, insert_key_In. intuition. }
  destruct (G [] (SSorted_nil _)) as [S I].
  split; [exact S|]. intros x. rewrite I. simpl. intuition.
Qed.

Lemma sorted_keys_nodup ks : StronglySorted key_lt ks -> NoDup ks.
Proof.
  induction 1 as [|k ks Hs IH Hall]; constructor; [|exact IH].
  intros Hin. rewrite Forall_forall in Hall.
  exact (key_lt_irrefl k (Hall k Hin)).
Qed.

Lemma lin_keys cfg files s s' g :
  _compile_shp cfg files s = (s', Ok g) ->
  map fst (lin g) = group_keys (map id (pts g)).
Proof.
  intros H. apply compile_shp_inv in H. destruct H as (_ & _ & _ & _ & ->).
  rewrite map_map. simpl. apply map_id.
Qed.

(** X7. ['lin'] has exactly one row for every id that occurs in
    ['pts'], in strictly ascending order of the ids, and its ids are,
    row for row, those of the grouped mean times that [_identify]
    looks up by the row index of ['lin']. *)
Theorem lin_has_one_row_per_track cfg files s s' g :
  _compile_shp cfg files s = (s', Ok g) ->
  NoDup (map fst (lin g)) /\
  StronglySorted key_lt (map fst (lin g)) /\
  (forall k, In k (map fst (lin g)) <-> exists r, In r (pts g) /\ id r = k) /\
  map fst (lin g) = map fst (group_mean_time (pts g)).
Proof.
  intros H. rewrite (lin_keys _ _ _ _ _ H).
  destruct (group_keys_spec (map id (pts g))) as [S I].
  split; [now apply sorted_keys_nodup|]. split; [exact S|]. split.
  - intros k. rewrite I, in_map_iff. split; intros (r & A & B); eauto.
  - unfold group_mean_time. rewrite map_map. simpl. symmetry. apply map_id.
Qed.


(** ** When [_compile_shp] returns *)












(** ** When [_identify] returns, and how much *)


Lemma enumerate_length {A} (xs : list A) : length (enumerate xs) = length xs.
Proof. unfold enumerate. rewrite length_combine, length_seq. lia. Qed.







Lemma sorted_bounded_length :
  forall l k n, StronglySorted lt l ->
                (forall i, In i l -> k <= i < k + n) ->
                length l <= n.
Proof.
  induction l as [|a l IH]; intros k n Hs Hb; simpl; [lia|].
  inversion Hs as [|? ? Hs' Hall]; subst.
  pose proof (Hb a (or_introl eq_refl)) as Ha.
  assert (Hl : length l <= n - 1).
  { apply (IH (S k)); [exact Hs'|].
    intros i Hi. rewrite Forall_forall in Hall.
    pose proof (Hall i Hi). pose proof (Hb i (or_intror Hi)). lia. }
  lia.
Qed.

Lemma take_positions_valid {A} (a : list A) idx l i :
  np.take a idx = Ok l -> In i idx -> i < length a.
Proof.
  intros H. apply take_ok in H.
  induction H as [|j x idx l Hj _ IH]; simpl; [tauto|].
  intros [<-|Hin]; [|auto]. apply nth_error_Some. congruence.
Qed.

(** X10. [_identify] returns at most one row for each pair of a row of
    ['lin'] of the first carrier and a row of ['lin'] of the second. *)
Theorem match_count_bounded cfg g1 g2 s s' out :
  _identify cfg g1 g2 s = (s', Ok out) ->
  length (rows out) <= length (lin g1) * length (lin g2).
Proof.
  unfold _identify. cbv zeta. intros H.
  step_to_datetime H. step_to_datetime H. step_py H.
  assert (Hpair : forall xo_id1 lin1 it2 (a : accumulators) t t' a',
             identify_pair cfg (pts g1) (pts g2) xo_id1 lin1 it2 a t
             = (t', Ok a') ->
             length (fst a') <= length (fst a) + 1).
  { intros xo_id1 lin1 [idx2 [xo_id2 lin2]] [at0 ge0] t t' a' Hp.
    apply identify_pair_cases in Hp.
    destruct Hp as [->|(r & l1 & l2 & m & _ & _ & _ & -> & _)]; simpl;
      [lia | rewrite length_app; simpl; lia]. }
  assert (Hline : forall it1 (a : accumulators) t t' a',
             In it1 (enumerate (lin g1)) ->
             identify_line cfg (pts g1) (pts g2) (lin g2)
               (map (fun r => to_datetime (snd r)) (group_mean_time (pts g1)))
               (map (fun r => to_datetime (snd r)) (group_mean_time (pts g2)))
               (length (lin g1)) it1 a t = (t', Ok a') ->
             length (fst a') <= length (fst a) + length (lin g2)).
  { intros [idx1 [xo_id1 lin1]] a t t' a' _ Hl.
    unfold identify_line in Hl. do 4 step_py Hl.
    apply lift_ok in Hx3. destruct Hx3 as [_ Hsub].
    assert (Hlen : length x3 <= length (lin g2)).
    { rewrite (take_length _ _ _ Hsub).
      apply (sorted_bounded_length _ 0); [apply where_from_sorted|].
      intros i Hi. pose proof (take_positions_valid _ _ _ _ Hsub Hi) as Hv.
      rewrite enumerate_length in Hv. lia. }
    pose proof (for_each_count (fun acc : accumulators => length (fst acc))
                  (identify_pair cfg (pts g1) (pts g2) xo_id1 lin1) 1
                  x3 a _ _ _
                  (fun it2 b u u' b' _ Hp => Hpair xo_id1 lin1 it2 b u u' b' Hp)
                  Hl) as Hin.
    simpl in Hin. lia. }
  pose proof (for_each_count (fun acc : accumulators => length (fst acc))
                _ (length (lin g2)) _ _ _ _ _ Hline Hx) as Hcount.
  simpl in Hcount. rewrite enumerate_length in Hcount.
  destruct x as [attributes geometries]. step_py H.
  apply lift_ok in H. destruct H as [_ H]. unfold GeoDataFrame in H.
  destruct (length attributes =? length geometries); [|discriminate].
  inversion H; subst; simpl in *. rewrite length_combine. lia.
Qed.



(** ** [run] *)

(** X12. A run whose matching stage returns at least one row writes
    that frame, once, under the name [output_to_shp] gives for the year
    and month, logs the two export lines and ends normally. *)
Theorem run_exports_matches
    cfg year month files1 files2 (s s1 s2 s3 : trace) g1 g2 out :
  _compile_shp cfg files1 s = (s1, Ok g1) ->
  _compile_shp cfg files2 s1 = (s2, Ok g2) ->
  _identify cfg g1 g2 s2 = (s3, Ok out) ->
  rows out <> [] ->
  run cfg year month files1 files2 s
  = (s3 ++ [Log INFO msg_exporting;
            ToFile (output_to_shp cfg year month) out;
            Log INFO msg_export_complete],
     Ok tt).
Proof.
  intros H1 H2 H3 Hrows. unfold run.
  rewrite (bind_eq _ _ _ _ _ H1), (bind_eq _ _ _ _ _ H2),
          (bind_eq _ _ _ _ _ H3).
  unfold _export_shp, set_crs.
  rewrite (identify_crs _ _ _ _ _ _ H3), Z.eqb_refl.
  unfold bind at 1. unfold lift.
  destruct (rows out) as [|row rest] eqn:E; [contradiction|].
  unfold bind, logger, to_file. simpl.
  rewrite <- !app_assoc. reflexivity.
Qed.

(** X13. A carrier without files ends the run in [pd.concat] with a
    ValueError, before any matching or export, and so with exit status
    1 and no critical line: for the first carrier at once, for the
    second after the first has been compiled. *)
Theorem run_without_files_raises cfg year month files (s s1 : trace) g1 :
  run cfg year month [] files s
  = (s ++ [Log INFO msg_converting_pandas], Raise ValueError)
  /\
  exit_status (snd (run cfg year month [] files s)) = 1%Z
  /\
  (_compile_shp cfg files s = (s1, Ok g1) ->
   run cfg year month files [] s
   = (s1 ++ [Log INFO msg_converting_pandas], Raise ValueError)).
Proof.
  split; [reflexivity|]. split; [reflexivity|].
  intros H. unfold run. rewrite (bind_eq _ _ _ _ _ H). reflexivity.
Qed.

(** ** Checks that compute *)

Definition representableb (t : Q) : bool :=
  match fromtimestamp t with
  | Ok _ => true
  | Raise _ => false
  end.

Lemma representable_checked (p : list pts_row) :
  forallb (fun r => representableb (time r)) p = true ->
  Forall (fun r => representable (time r)) p.
Proof.
  rewrite forallb_forall, Forall_forall. intros H r Hr.
  specialize (H r Hr). unfold representableb, representable in *.
  destruct (fromtimestamp (time r)) as [us|]; [eauto | discriminate].
Qed.


Lemma positions_checked (l : list nat) n :
  forallb (fun i => i <? n) l = true -> forall i, In i l -> i < n.
Proof.
  rewrite forallb_forall. intros H i Hi. now apply Nat.ltb_lt, H.
Qed.


End FurtherProperties.

(** * The scenarios, evaluated on the planar instance *)

Lemma within_empty g :
  forall p r, Planar.empty g = true -> Planar.within p g r = false.
Proof.
  induction g; intros q r H; simpl in *; try discriminate; auto.
  - destruct vs; [reflexivity | discriminate].
  - destruct ps; [reflexivity | discriminate].
  - induction ls as [|l ls IH]; simpl in *; auto.
    apply andb_true_iff in H. destruct H as [H1 H2].
    destruct l; [|discriminate]. simpl. auto.
  - apply orb_true_iff in H. destruct H as [H|H].
    + rewrite IHg by assumption. apply andb_false_r.
    + rewrite H. reflexivity.
Qed.

Lemma planar_buffer_empty g d :
  Planar.empty g = true -> Planar.empty (Planar.Buf g d) = true.
Proof. intros H. simpl. rewrite H. reflexivity. Qed.

Lemma planar_touches_empty p g :
  Planar.empty g = true -> Planar.touches p g = false.
Proof.
  intros H. unfold Planar.touches.
  induction (Planar.vertices p); simpl; auto.
  rewrite within_empty by assumption. assumption.
Qed.

#[export] Instance planar : GeoStack := {|
  Geometry := Planar.shape;
  geom_type := Planar.type_of;
  is_empty := Planar.empty;
  points_from_xy := fun _ lon lat => Planar.Pt (lon, lat);
  LineString_of := fun ps => Planar.Ln (concat (map Planar.vertices ps));
  intersection := Planar.meet;
  buffer := Planar.Buf;
  intersects := Planar.touches;
  to_datetime := fun t => np.rint (t * 1000000000);
  buffer_empty := planar_buffer_empty;
  intersects_empty := planar_touches_empty
|}.

Import Scenario.

(** Name the value of a closed computation. *)
Ltac evaluate E e :=
  let v := eval vm_compute in e in
  assert (E : e = v) by exact (eq_refl v).

(** The crossing tracks give one match, at the crossing point. *)
Lemma match_geometry_has_configured_shape_witness :
  exists t out,
    _identify cfg_xo (built cfg_xo [file_a]) (built cfg_xo [file_b]) []
    = (t, Ok out) /\
    length (rows out) = 1 /\
    forall a g, In (a, g) (rows out) ->
      exists m, g = Some m /\ is_empty m = false /\ geom_type m = Point.
Proof.
  evaluate E (_identify cfg_xo (built cfg_xo [file_a])
                        (built cfg_xo [file_b]) []).
  eexists. eexists. split; [exact E|].
  split; [reflexivity|].
  intros a g Hin.
  destruct (match_geometry_has_configured_shape _ _ _ _ _ _ E) as [Hrows _].
  destruct (Hrows a g Hin)
    as (m & _ & _ & -> & _ & _ & _ & He & _ & Hxo & _).
  exists m. split; [reflexivity|]. split; [exact He|].
  apply Hxo. reflexivity.
Defined.

(** The side-by-side tracks give one match under ['otm'], with all
    sixty samples of each side attributed. *)
Lemma match_meets_sample_threshold_witness :
  exists t out,
    _identify cfg_otm (built cfg_otm [file_p]) (built cfg_otm [file_q]) []
    = (t, Ok out) /\
    length (rows out) = 1 /\
    forall a m, In (a, Some m) (rows out) ->
      51 <= length (attributed cfg_otm m (track1 (built cfg_otm [file_p]) a)) /\
      51 <= length (attributed cfg_otm m (track2 (built cfg_otm [file_q]) a)).
Proof.
  evaluate E (_identify cfg_otm (built cfg_otm [file_p])
                        (built cfg_otm [file_q]) []).
  eexists. eexists. split; [exact E|].
  split; [reflexivity|].
  intros a m Hin.
  destruct (match_meets_sample_threshold _ _ _ _ _ _ E) as [Hrows _].
  apply (Hrows a m Hin). reflexivity.
Defined.

(** Two crossing tracks whose midpoint samples are 1827 seconds apart,
    0.5075 hours: the quotient [1827 / 3600] times [1000] is the
    binary64 number just below 507.5, and the reported offset is the
    binary64 number nearest to 0.507. *)
Lemma time_delta_is_midpoint_difference_witness :
  exists t out,
    _identify cfg_xo (built cfg_xo [file_a]) (built cfg_xo [file_d]) []
    = (t, Ok out) /\
    map (fun row => match_dt (fst row)) (rows out)
    = [np.float64 (507 # 1000)] /\
    forall a m, In (a, Some m) (rows out) ->
      exists us1 us2,
        match_dt a = np.round3 (hours_between us1 us2) /\
        (0 <= match_dt a)%Q /\
        (Qabs (match_dt a - hours_apart us1 us2)
         <= (1 # 2000) + (hours_apart us1 us2 + 1) * (1 # 562949953421312))%Q.
Proof.
  evaluate E (_identify cfg_xo (built cfg_xo [file_a])
                        (built cfg_xo [file_d]) []).
  evaluate F (np.float64 (507 # 1000)).
  eexists. eexists. split; [exact E|].
  split; [rewrite F; reflexivity|].
  intros a m Hin.
  destruct (time_delta_is_midpoint_difference _ _ _ _ _ _ E a m Hin)
    as (r1 & r2 & us1 & us2 & _ & _ & _ & _ & _ & _ & Hdt & Hpos & Hnear).
  exists us1, us2. repeat split; assumption.
Defined.

(** On the crossing tracks, with a buffer of one and a half units, the
    samples at file positions 1 to 3 of each track are attributed. *)
Lemma index_bounds_follow_track_order_witness :
  exists t out,
    _identify cfg_xo (built cfg_xo [file_a]) (built cfg_xo [file_b]) []
    = (t, Ok out) /\
    map (fun row => (rng1_0 (fst row), rng1_1 (fst row))) (rows out) = [(1, 3)] /\
    forall a m, In (a, Some m) (rows out) ->
      hd_error (map fidx (attributed cfg_xo m (track1 (built cfg_xo [file_a]) a)))
      = Some (rng1_0 a) /\
      iloc_last (map fidx (attributed cfg_xo m (track1 (built cfg_xo [file_a]) a)))
      = Ok (rng1_1 a).
Proof.
  evaluate E (_identify cfg_xo (built cfg_xo [file_a])
                        (built cfg_xo [file_b]) []).
  eexists. eexists. split; [exact E|].
  split; [reflexivity|].
  intros a m Hin.
  destruct (index_bounds_follow_track_order _ _ _ _ _ _ E a m Hin)
    as ((_ & _ & H0 & H1) & _).
  split; assumption.
Defined.

(** The parallel tracks [file_a] and [file_c]: the run finds nothing,
    logs the critical line and exits with status 0. *)
Lemma empty_result_exits_with_status_zero_witness :
  exists t,
    run cfg_xo "2011" "03" [file_a] [file_c] []
    = (t ++ [Log CRITICAL msg_no_matches], Raise (SystemExit None)) /\
    exit_status (snd (run cfg_xo "2011" "03" [file_a] [file_c] [])) = 0%Z.
Proof.
  evaluate E1 (_compile_shp cfg_xo [file_a] []).
  match type of E1 with _ = (?s1, Ok ?g1) =>
    evaluate E2 (_compile_shp cfg_xo [file_c] s1);
    match type of E2 with _ = (?s2, Ok ?g2) =>
      evaluate E3 (_identify cfg_xo g1 g2 s2)
    end
  end.
  eexists.
  exact (empty_result_exits_with_status_zero
           cfg_xo "2011" "03" _ _ _ _ _ _ _ _ _ E1 E2 E3 eq_refl).
Defined.

(** The polylines of [file_a] and [file_c]. *)
Definition line_a : Planar.shape :=
  Planar.Ln [(0, -60); (1, -59); (2, -58); (3, -57); (4, -56)]%Q.

Definition line_c : Planar.shape :=
  Planar.Ln [(0, -66); (1, -65); (2, -64); (3, -63); (4, -62)]%Q.

(** C6, the counterexample. [file_a] and [file_c] are 4000 seconds
    apart in mean time, within the two hours of [cfg_xo], so the pair is
    admitted; their polylines do not meet; the matching stage returns
    normally, without a row, and its log holds the warning
    'Unsupported intersect type' for the pair. *)
Lemma empty_intersection_is_logged :
  In ("a.nc"%string, Some line_a) (lin (built cfg_xo [file_a])) /\
  In ("c.nc"%string, Some line_c) (lin (built cfg_xo [file_c])) /\
  (exists t1 t2,
     map (fun r => to_datetime (snd r))
         (group_mean_time (pts (built cfg_xo [file_a]))) = [t1] /\
     map (fun r => to_datetime (snd r))
         (group_mean_time (pts (built cfg_xo [file_c]))) = [t2] /\
     Qle_bool (abs_dtd_hh_of t2 t1) (delta_t cfg_xo) = true) /\
  is_empty (intersection line_a line_c) = true /\
  exists t out,
    _identify cfg_xo (built cfg_xo [file_a]) (built cfg_xo [file_c]) []
    = (t, Ok out) /\
    rows out = [] /\
    In (Log WARNING (msg_unsupported (shapely LineString))) t.
Proof.
  split; [left; reflexivity|].
  split; [left; reflexivity|].
  split; [eexists; eexists; repeat split; reflexivity|].
  split; [reflexivity|].
  evaluate E (_identify cfg_xo (built cfg_xo [file_a])
                        (built cfg_xo [file_c]) []).
  eexists. eexists. split; [exact E|].
  split; [reflexivity|].
  simpl. tauto.
Defined.

(** The amended statement on the same pair. *)
Lemma empty_intersection_adds_nothing_witness :
  _identify_intersection cfg_xo line_a line_c = Some (Planar.Ln []) /\
  is_empty (Planar.Ln []) = true /\
  identify_pair cfg_xo (pts (built cfg_xo [file_a])) (pts (built cfg_xo [file_c]))
                "a.nc" (Some line_a) (0, ("c.nc"%string, Some line_c))
                ([], []) []
  = ([Log WARNING (msg_unsupported (shapely LineString))], Ok ([], [])).
Proof.
  split; [reflexivity|]. split; [reflexivity|].
  exact (empty_intersection_adds_nothing
           cfg_xo (pts (built cfg_xo [file_a])) (pts (built cfg_xo [file_c]))
           "a.nc" line_a 0 "c.nc" line_c (Planar.Ln []) ([], []) []
           eq_refl eq_refl).
Defined.

(** An unknown area of interest: the run stops on the first file with
    an AttributeError and nothing but the INFO line in the log. *)
Lemma unknown_aoi_raises_before_logging_witness :
  run cfg_bad_aoi "2011" "03" [file_a] [file_b] []
  = ([Log INFO (msg_processing_file "a.nc" 1 1)], Raise AttributeError)
  /\ exit_status (snd (run cfg_bad_aoi "2011" "03" [file_a] [file_b] [])) = 1%Z.
Proof.
  apply (unknown_aoi_raises_before_logging
           cfg_bad_aoi "2011" "03" file_a [] [file_b] []);
    discriminate.
Defined.

(** The samples of [file_s] and [file_t] as [_compile_shp] builds them,
    and the point where their polylines cross. *)
Definition rows_s : list pts_row := pts (built cfg_xo_wide [file_s]).
Definition rows_t : list pts_row := pts (built cfg_xo_wide [file_t]).
Definition crossing_st : Planar.shape := Planar.Pt (2, -58)%Q.

(** With a buffer of three units both samples of [file_s] and all four
    of [file_t] are attributed; positions 2 and 3 of [file_t] do not
    exist in the two-row frame of [file_s]. *)
Lemma identify_XOs_index_error_witness :
  _identify_intersection cfg_xo_wide
    (LineString_of (map geometry rows_s)) (LineString_of (map geometry rows_t))
  = Some crossing_st /\
  _identify_points_in_match cfg_xo_wide crossing_st rows_s = [0; 1] /\
  _identify_points_in_match cfg_xo_wide crossing_st rows_t = [0; 1; 2; 3] /\
  length rows_s = 2 /\
  _identify_XOs cfg_xo_wide crossing_st rows_s rows_t = Raise IndexError.
Proof.
  split; [reflexivity|]. split; [reflexivity|]. split; [reflexivity|].
  split; [reflexivity|].
  apply identify_XOs_index_error.
  - apply Nat.leb_le. reflexivity.
  - apply Nat.leb_le. reflexivity.
  - exists 2. split; [right; right; left; reflexivity|].
    apply Nat.leb_le. reflexivity.
Defined.

(** The same pair run through the whole pipeline: the exception is not
    caught anywhere. *)
Example run_ends_with_index_error :
  snd (run cfg_xo_wide "2011" "03" [file_s] [file_t] []) = Raise IndexError.
Proof. reflexivity. Qed.

(** ** Positions within a filtered subset, read as file positions

    [idx2pick] is computed on [sft[aoi_idx]] (line 102) and, where the
    file has a distance to coast, again on [d2c[idx2pick]] (line 107):
    its entries are positions within the filtered subsets. Lines
    112-115 apply them to the full arrays of the file and store them as
    [fidx]. *)

(** C8. In [file_m] the eligible measurements are at positions 3, 4
    and 5 of the file. The rows [_compile_shp] builds bear the file
    indices 1, 2 and 3, the positions of the ocean flags within the
    area subset, and hold the measurements at positions 1, 2 and 3 of
    the file, the first of them outside the area, the second not
    ocean: no row has the file position of an eligible measurement as
    its file index except by coincidence of the two numberings. *)
Theorem file_index_is_position_in_filtered_subset :
  eligible_positions cfg_xo file_m = [3; 4; 5] /\
  exists t g,
    _compile_shp cfg_xo [file_m] [] = (t, Ok g) /\
    map fidx (pts g) = [1; 2; 3] /\
    map lat (pts g) = [-52; -56; -58]%Q /\
    map time (pts g) = [110; 120; 130]%Q /\
    map (eligible cfg_xo file_m) (map fidx (pts g)) = [false; false; true].
Proof.
  split; [reflexivity|].
  evaluate E (_compile_shp cfg_xo [file_m] []).
  eexists. eexists. split; [exact E|]. repeat split; reflexivity.
Qed.

(** C9. [file_e] and [file_f] have no eligible measurement at all, yet
    [_compile_shp] builds two rows for each, from the two samples north
    of the area, and a polyline through them; [_identify] pairs the two
    tracks and returns a match between them. *)
Theorem ineligible_track_gets_polyline_and_match :
  eligible_positions cfg_xo file_e = [] /\
  eligible_positions cfg_xo file_f = [] /\
  exists s1 g1 s2 g2 s3 out,
    _compile_shp cfg_xo [file_e] [] = (s1, Ok g1) /\
    _compile_shp cfg_xo [file_f] s1 = (s2, Ok g2) /\
    map (fun r => (fidx r, lat r)) (pts g1) = [(0, (-50)%Q); (1, (-50)%Q)] /\
    map (fun r => (fidx r, lat r)) (pts g2) = [(0, (-51)%Q); (1, (-49)%Q)] /\
    lin g1 = [("e.nc"%string, Some (Planar.Ln [(0, -50); (2, -50)]%Q))] /\
    lin g2 = [("f.nc"%string, Some (Planar.Ln [(1, -51); (1, -49)]%Q))] /\
    _identify cfg_xo g1 g2 s2 = (s3, Ok out) /\
    map (fun row => (l1p_1 (fst row), l1p_2 (fst row),
                     rng1_0 (fst row), rng1_1 (fst row),
                     rng2_0 (fst row), rng2_1 (fst row), snd row))
        (rows out)
    = [("e.nc"%string, "f.nc"%string, 0, 1, 0, 1,
        Some (Planar.Pt (1, -50)%Q))].
Proof.
  split; [reflexivity|]. split; [reflexivity|].
  evaluate E1 (_compile_shp cfg_xo [file_e] []).
  match type of E1 with _ = (?s1, Ok ?g1) =>
    evaluate E2 (_compile_shp cfg_xo [file_f] s1);
    match type of E2 with _ = (?s2, Ok ?g2) =>
      evaluate E3 (_identify cfg_xo g1 g2 s2)
    end
  end.
  do 6 eexists.
  split; [exact E1|]. split; [exact E2|].
  do 4 (split; [reflexivity|]).
  split; [exact E3|]. reflexivity.
Qed.

(** A carrier whose only file stays outside the area: the frame has no
    row, and the run ends at [lin.id]. *)
Example no_sample_selected_raises :
  _compile_shp cfg_xo [file_n] []
  = ([Log INFO (msg_processing_file "n.nc" 1 1);
      Log INFO msg_converting_pandas; Log INFO msg_complete;
      Log INFO msg_converting_gdf; Log INFO msg_complete;
      Log INFO msg_compile_tracks],
     Raise AttributeError).
Proof. reflexivity. Qed.

(** * The further properties on the scenarios *)


(** The samples of the crossing tracks and of the side-by-side tracks,
    as [_compile_shp] builds them. *)
Definition rows_a : list pts_row := pts (built cfg_xo [file_a]).
Definition rows_b : list pts_row := pts (built cfg_xo [file_b]).
Definition rows_p : list pts_row := pts (built cfg_otm [file_p]).
Definition rows_q : list pts_row := pts (built cfg_otm [file_q]).
Definition crossing_ab : Planar.shape := Planar.Pt (2, -58)%Q.
Definition line_p : Planar.shape := LineString_of (map geometry rows_p).

(** The crossing tracks: three samples attributed on each side, all
    positions of track B within the five rows of track A. *)
Lemma identify_XOs_returns_witness :
  _identify_points_in_match cfg_xo crossing_ab rows_b = [1; 2; 3] /\
  exists a, _identify_XOs cfg_xo crossing_ab rows_a rows_b = Ok (Some a).
Proof.
  split; [reflexivity|].
  apply identify_XOs_returns.
  - apply Nat.leb_le. reflexivity.
  - apply Nat.leb_le. reflexivity.
  - apply positions_checked. reflexivity.
  - apply representable_checked. reflexivity.
  - apply representable_checked. reflexivity.
Defined.

(** The side-by-side tracks, in either order. *)
Lemma identify_OTMs_symmetric_witness :
  exists a,
    _identify_OTMs cfg_otm line_p rows_p rows_q = Ok (Some a) /\
    _identify_OTMs cfg_otm line_p rows_q rows_p = Ok (Some (swap_sides a)).
Proof.
  evaluate E (_identify_OTMs cfg_otm line_p rows_p rows_q).
  eexists. split; [exact E|].
  exact (identify_OTMs_symmetric cfg_otm line_p rows_p rows_q _ E).
Defined.

(** [file_m] has four samples south of -55: every [fidx] is below 4. *)
Lemma fidx_below_aoi_count_witness :
  exists t g,
    _compile_shp cfg_xo [file_m] [] = (t, Ok g) /\
    forall r, In r (pts g) -> fidx r < 4.
Proof.
  evaluate E (_compile_shp cfg_xo [file_m] []).
  eexists. eexists. split; [exact E|].
  intros r Hr.
  destruct (fidx_below_aoi_count _ _ _ _ _ E r Hr)
    as (f & _ & _ & _ & [<-|[]] & _ & _ & _ & Hant).
  exact (Hant eq_refl).
Defined.

Lemma track_positions_ascending_witness :
  NoDup (map ncfile [file_b; file_u]) /\
  StronglySorted lt
    (map fidx (rows_of (pts (built cfg_xo [file_b; file_u])) "b.nc")).
Proof.
  assert (Hnd : NoDup (map ncfile [file_b; file_u])).
  { repeat constructor; simpl; intuition discriminate. }
  split; [exact Hnd|].
  evaluate E (_compile_shp cfg_xo [file_b; file_u] []).
  exact (track_positions_ascending _ _ _ _ _ E Hnd "b.nc").
Defined.

Lemma index_bounds_enclose_attributed_witness :
  exists s1 g1 s2 g2 s3 out,
    _compile_shp cfg_xo [file_a] [] = (s1, Ok g1) /\
    _compile_shp cfg_xo [file_b] s1 = (s2, Ok g2) /\
    _identify cfg_xo g1 g2 s2 = (s3, Ok out) /\
    length (rows out) = 1 /\
    forall a m, In (a, Some m) (rows out) ->
      rng1_0 a <= rng1_1 a /\ rng2_0 a <= rng2_1 a.
Proof.
  evaluate E1 (_compile_shp cfg_xo [file_a] []).
  match type of E1 with _ = (?s1, Ok ?g1) =>
    evaluate E2 (_compile_shp cfg_xo [file_b] s1);
    match type of E2 with _ = (?s2, Ok ?g2) =>
      evaluate E3 (_identify cfg_xo g1 g2 s2)
    end
  end.
  do 6 eexists.
  split; [exact E1|]. split; [exact E2|]. split; [exact E3|].
  split; [reflexivity|].
  intros a m Hin.
  assert (Hnd1 : NoDup (map ncfile [file_a]))
    by (repeat constructor; simpl; tauto).
  assert (Hnd2 : NoDup (map ncfile [file_b]))
    by (repeat constructor; simpl; tauto).
  destruct (index_bounds_enclose_attributed
              _ _ _ _ _ _ _ _ _ _ _ _ E1 E2 Hnd1 Hnd2 E3 a m Hin)
    as (H1 & H2 & _).
  split; assumption.
Defined.

Lemma lin_has_one_row_per_track_witness :
  exists t g,
    _compile_shp cfg_xo [file_b; file_u] [] = (t, Ok g) /\
    map fst (lin g) = ["b.nc"; "u.nc"]%string /\
    NoDup (map fst (lin g)) /\
    map fst (lin g) = map fst (group_mean_time (pts g)).
Proof.
  evaluate E (_compile_shp cfg_xo [file_b; file_u] []).
  eexists. eexists. split; [exact E|].
  split; [reflexivity|].
  destruct (lin_has_one_row_per_track _ _ _ _ _ E) as (Hnd & _ & _ & Hal).
  split; assumption.
Defined.



Lemma match_count_bounded_witness :
  exists t out,
    _identify cfg_xo (built cfg_xo [file_a]) (built cfg_xo [file_b; file_u]) []
    = (t, Ok out) /\
    length (rows out) <= 1 * 2.
Proof.
  evaluate E (_identify cfg_xo (built cfg_xo [file_a])
                        (built cfg_xo [file_b; file_u]) []).
  eexists. eexists. split; [exact E|].
  exact (match_count_bounded _ _ _ _ _ _ E).
Defined.


Lemma run_exports_matches_witness :
  exists t out,
    run cfg_xo "2011" "03" [file_a] [file_b] []
    = (t ++ [Log INFO msg_exporting;
             ToFile "xo_201103.shp" out;
             Log INFO msg_export_complete],
       Ok tt) /\
    length (rows out) = 1.
Proof.
  evaluate E1 (_compile_shp cfg_xo [file_a] []).
  match type of E1 with _ = (?s1, Ok ?g1) =>
    evaluate E2 (_compile_shp cfg_xo [file_b] s1);
    match type of E2 with _ = (?s2, Ok ?g2) =>
      evaluate E3 (_identify cfg_xo g1 g2 s2)
    end
  end.
  eexists. eexists. split.
  - refine (run_exports_matches cfg_xo "2011" "03" _ _ _ _ _ _ _ _ _
              E1 E2 E3 _).
    discriminate.
  - reflexivity.
Defined.

Lemma run_without_files_raises_witness :
  exists s1,
    run cfg_xo "2011" "03" [file_a] [] []
    = (s1 ++ [Log INFO msg_converting_pandas], Raise ValueError).
Proof.
  evaluate E1 (_compile_shp cfg_xo [file_a] []).
  eexists.
  exact (proj2 (proj2 (run_without_files_raises
                         cfg_xo "2011" "03" [file_a] [] _ _)) E1).
Defined.
